(** * Snapshot fetcher and overlay manager of hive: a shallow embedding

    The development follows [internal/snapshot/snapshot.go],
    [internal/overlay/overlay.go] with its Linux and non-Linux platform files,
    and the older [hivesim] snapshot manager.  The operating system, the HTTP
    server and the external tools are an explicit environment: a file-system
    map, a table of injected faults, a script of server replies and tables for
    the outcome of mount, unmount and extraction.  Logging is dropped; it has
    no effect on the state. *)

From Stdlib Require Import ZArith Lia Ascii String.
From stdpp Require Import base option list gmap strings pretty.

Local Open Scope string_scope.
Local Open Scope list_scope.
Local Open Scope Z_scope.

(** ** Go strings *)

Module GoString.

(** [len(s)]: strings are byte sequences. *)
Definition len (s : string) : nat := String.length s.

(** [s[:n]] for [n <= len(s)]; the bounds check is made by the caller. *)
Fixpoint prefix (n : nat) (s : string) : string :=
  match n, s with
  | S n', String c s' => String c (prefix n' s')
  | _, _ => EmptyString
  end.

Definition is_upper (c : ascii) : bool :=
  let n := nat_of_ascii c in (65 <=? n)%nat && (n <=? 90)%nat.

Definition lower_ascii (c : ascii) : ascii :=
  if is_upper c then ascii_of_nat (nat_of_ascii c + 32) else c.

(** [strings.ToLower], on the ASCII range. *)
Fixpoint ToLower (s : string) : string :=
  match s with
  | EmptyString => EmptyString
  | String c s' => String (lower_ascii c) (ToLower s')
  end.

(** [strings.Index(s, "_")]: position of the first occurrence of [c]. *)
Fixpoint IndexByte (c : ascii) (s : string) : option nat :=
  match s with
  | EmptyString => None
  | String d s' =>
      if Ascii.eqb c d then Some 0%nat
      else match IndexByte c s' with
           | Some i => Some (S i)
           | None => None
           end
  end.

Definition is_space (c : ascii) : bool :=
  let n := nat_of_ascii c in
  (n =? 32)%nat || ((9 <=? n)%nat && (n <=? 13)%nat).

Fixpoint trim_left (s : string) : string :=
  match s with
  | String c s' => if is_space c then trim_left s' else s
  | EmptyString => EmptyString
  end.

(** Drops the trailing white space: a suffix made of spaces only vanishes. *)
Fixpoint trim_right (s : string) : string :=
  match s with
  | EmptyString => EmptyString
  | String c s' =>
      match trim_right s' with
      | EmptyString => if is_space c then EmptyString else String c EmptyString
      | t => String c t
      end
  end.

(** [strings.TrimSpace], on the ASCII white space. *)
Definition TrimSpace (s : string) : string := trim_right (trim_left s).

End GoString.

(** ** Errors *)

(** The [errno] values the model distinguishes.  [EIO] stands for any injected
    failure of an operation that would otherwise succeed. *)
Inductive errno := ENOENT | ENOTDIR | EISDIR | ENOTEMPTY | EACCES | EPERM | EBUSY | EIO.

(** Go [error] values: the sentinels of [overlay/errors.go], operating-system
    errors, plain messages, and the two wrapping shapes of [fmt.Errorf]. *)
Inductive error :=
| ErrOverlayNotSupported
| ErrSnapshotNotFound
| ErrSnapshotNotDirectory
| ErrMountFailed
| ErrUnmountFailed
| ErrPermissionDenied
| ErrOverlayExists
| ErrOverlayNotFound
| OsError (e : errno)
| NetError
| Msg (text : string)
| Wrap (text : string) (inner : error)      (* fmt.Errorf("text: %w", inner) *)
| Annot (inner : error) (detail : string).  (* fmt.Errorf("%w: %v", inner, detail) *)

#[global] Instance errno_eq_dec : EqDecision errno.
Proof. solve_decision. Defined.

#[global] Instance error_eq_dec : EqDecision error.
Proof. solve_decision. Defined.

(** [errors.Is(err, target)] for a sentinel [target]: follow the [%w] chain. *)
Fixpoint errors_Is (err target : error) : bool :=
  if bool_decide (err = target) then true
  else match err with
       | Wrap _ inner => errors_Is inner target
       | Annot inner _ => errors_Is inner target
       | _ => false
       end.

(** [os.IsNotExist] and [os.IsPermission] on the errors of this model. *)
Definition IsNotExist (e : errno) : bool := bool_decide (e = ENOENT).
Definition IsPermission (e : errno) : bool :=
  bool_decide (e = EACCES) || bool_decide (e = EPERM).

(** What a call does: return a value, return an error, or panic. *)
Inductive outcome (A : Type) :=
| Ret (a : A)
| Fail (e : error)
| Panic (reason : string).
Arguments Ret {A} a.
Arguments Fail {A} e.
Arguments Panic {A} reason.

(** ** Data model *)

(** Host paths are sequences of components; [filepath.Join] appends
    components.  The root is the empty sequence. *)
Abbreviation path := (list string).

Definition Join (p : path) (elems : list string) : path := p ++ elems.

(** [overlay.Mount]. *)
Record Mount := {
  ID : string;
  ContainerID : string;
  LowerDir : path;
  UpperDir : path;
  WorkDir : path;
  MergedDir : path;
  ContainerPath : string;
  CreatedAt : Z
}.

(** What a regular file holds.  The JSON codec is kept abstract: a file holds
    either the document [json.MarshalIndent] produced for a registry, which
    [json.Unmarshal] reads back, or other bytes, which it rejects. *)
Inductive Content :=
| Bytes (b : string)
| StateDoc (reg : gmap string Mount).

Inductive node :=
| File (c : Content)
| Dir.

Definition IsDir (n : node) : bool :=
  match n with Dir => true | File _ => false end.

(** [FileInfo.Size()]. A directory reports the size of one block. *)
Definition Size (n : node) : Z :=
  match n with
  | File (Bytes b) => Z.of_nat (String.length b)
  | File (StateDoc _) => 1
  | Dir => 4096
  end.

(** ** The file system *)

Module FS.

(** The system calls that can be made to fail from outside. *)
Inductive op := OpStat | OpMkdir | OpWrite | OpOpen | OpRead | OpRemove | OpRemoveAll.

Record t := {
  tree : gmap path node;
  fault : op -> path -> bool
}.

Definition with_tree (m : gmap path node) (s : t) : t :=
  {| tree := m; fault := fault s |}.

(** [q] is [p] or lies below it. *)
Definition under (p q : path) : Prop := p `prefix_of` q.

Definition parent (p : path) : path := removelast p.

Definition parent_is_dir (m : gmap path node) (p : path) : bool :=
  match p with
  | [] => false
  | _ =>
      match parent p with
      | [] => true
      | pp => match m !! pp with Some Dir => true | _ => false end
      end
  end.

(** [os.Stat]. *)
Definition Stat (s : t) (p : path) : errno + node :=
  if fault s OpStat p then inl EIO
  else match tree s !! p with
       | Some n => inr n
       | None => inl ENOENT
       end.

(** [os.MkdirAll]: the components are visited from the root down; an
    existing directory is kept, a regular file on the way stops the call,
    a missing component is created. *)
Fixpoint mkdirs (flt : path -> bool) (cur : path) (rest : list string)
    (m : gmap path node) : option errno * gmap path node :=
  match rest with
  | [] => (None, m)
  | c :: rest' =>
      let cur' := cur ++ [c] in
      match m !! cur' with
      | Some Dir => mkdirs flt cur' rest' m
      | Some (File _) => (Some ENOTDIR, m)
      | None =>
          if flt cur' then (Some EACCES, m)
          else mkdirs flt cur' rest' (<[cur' := Dir]> m)
      end
  end.

Definition MkdirAll (s : t) (p : path) : option errno * t :=
  let '(e, m) := mkdirs (fault s OpMkdir) [] p (tree s) in
  (e, with_tree m s).

(** [os.WriteFile], and [os.Create] followed by writes: the file is created
    or truncated and then holds [c]. *)
Definition WriteFile (s : t) (p : path) (c : Content) : option errno * t :=
  if fault s OpWrite p then (Some EACCES, s)
  else match tree s !! p with
       | Some Dir => (Some EISDIR, s)
       | _ =>
           if parent_is_dir (tree s) p
           then (None, with_tree (<[p := File c]> (tree s)) s)
           else (Some ENOENT, s)
       end.

(** [os.OpenFile(p, O_APPEND|O_WRONLY)]: the file must exist. *)
Definition OpenAppend (s : t) (p : path) : errno + Content :=
  if fault s OpOpen p then inl EACCES
  else match tree s !! p with
       | Some (File c) => inr c
       | Some Dir => inl EISDIR
       | None => inl ENOENT
       end.


Definition has_child (m : gmap path node) (p : path) : bool :=
  negb (bool_decide (map_Forall (fun q _ => ~ (under p q /\ q <> p)) m)).

(** [os.Remove]: a file, or an empty directory. *)
Definition Remove (s : t) (p : path) : option errno * t :=
  if fault s OpRemove p then (Some EACCES, s)
  else match tree s !! p with
       | None => (Some ENOENT, s)
       | Some (File _) => (None, with_tree (delete p (tree s)) s)
       | Some Dir =>
           if has_child (tree s) p then (Some ENOTEMPTY, s)
           else (None, with_tree (delete p (tree s)) s)
       end.

(** [os.RemoveAll]: the path and everything below it; a missing path is not
    an error. *)
Definition RemoveAll (s : t) (p : path) : option errno * t :=
  if fault s OpRemoveAll p then (Some EACCES, s)
  else (None, with_tree (filter (fun kv => ~ under p kv.1) (tree s)) s).

End FS.

(** ** The snapshot fetcher ([internal/snapshot/snapshot.go]) *)

Module Snapshot.

Definition DefaultBaseURL : string := "https://snapshots.ethpandaops.io".
Definition SnapshotFileName : string := "snapshot.tar.zst".

Definition StatusOK : Z := 200.
Definition StatusPartialContent : Z := 206.
Definition StatusRequestedRangeNotSatisfiable : Z := 416.

(** [snapshot.Config]; an empty [CacheDir] is the empty path. *)
Record Config := {
  Network : string;
  Client : string;
  BlockNumber : string;
  BaseURL : string;
  CacheDir : path
}.

(** [snapshot.Fetcher], without its HTTP client and logger. *)
Record Fetcher := {
  cacheDir : path;
  baseURL : string
}.

(** A GET request as the server sees it. *)
Record Request := {
  URL : string;
  Range : option Z
}.

(** A response: the status, the body, and whether reading the body ends in
    an error after the bytes of [Body] have been delivered. *)
Record Response := {
  StatusCode : Z;
  Body : string;
  BodyFails : bool
}.

(** What [client.Do] gives: a transport error or a response. *)
Inductive Reply :=
| Transport
| Answer (r : Response).

(** The environment of the fetcher.  [script] holds the replies the server
    will give, in order; once it is used up every request fails in
    transport.  [requests] records the requests issued so far.  [untar]
    tells, for the bytes of an archive, whether the [zstd | tar] pipeline
    exits with success and which entries it writes below the destination. *)
Record World := {
  disk : FS.t;
  script : list Reply;
  requests : list Request;
  url_invalid : string -> bool;
  zstd_found : bool;
  untar : string -> bool * list (path * node);
  timestamp : string
}.

Definition with_disk (d : FS.t) (w : World) : World :=
  {| disk := d; script := script w; requests := requests w;
     url_invalid := url_invalid w; zstd_found := zstd_found w;
     untar := untar w; timestamp := timestamp w |}.

(** One round trip: the request is recorded and the next reply consumed. *)
Definition send (req : Request) (rest : list Reply) (w : World) : World :=
  {| disk := disk w; script := rest; requests := requests w ++ [req];
     url_invalid := url_invalid w; zstd_found := zstd_found w;
     untar := untar w; timestamp := timestamp w |}.

Definition Do (w : World) (req : Request) : Reply * World :=
  match script w with
  | [] => (Transport, send req [] w)
  | r :: rest => (r, send req rest w)
  end.

(** [mapClientName]. *)
Definition mapping : gmap string string :=
  list_to_map [("go-ethereum", "geth"); ("nethermind", "nethermind");
               ("besu", "besu"); ("reth", "reth"); ("erigon", "erigon")].

Definition mapClientName (hiveName : string) : string :=
  let baseName :=
    match GoString.IndexByte "_"%char hiveName with
    | Some (S idx) => GoString.prefix (S idx) hiveName
    | _ => hiveName
    end in
  match mapping !! GoString.ToLower baseName with
  | Some mapped => mapped
  | None => baseName
  end.

(** The paths of a cache entry. *)
Definition entryDir (cache : path) (network client block : string) : path :=
  Join cache [network; client; block].
Definition dataDir (entry : path) : path := Join entry ["data"].
Definition markerPath (entry : path) : path := Join entry [".complete"].
Definition archivePath (entry : path) : path := Join entry [SnapshotFileName].

(** [io.ReadAll(io.LimitReader(resp.Body, 64))]: the limit is reached
    before a failure at the end of a longer body is seen. *)
Definition read_limited (n : nat) (r : Response) : option string :=
  if (n <=? String.length (Body r))%nat then Some (GoString.prefix n (Body r))
  else if BodyFails r then None
  else Some (Body r).

(** [resolveLatestBlock]. *)
Definition resolveLatestBlock (w : World) (base network client : string)
    : outcome string * World :=
  let latestURL := base +:+ "/" +:+ network +:+ "/" +:+ client +:+ "/latest" in
  if url_invalid w latestURL then (Fail (Msg "invalid URL"), w)
  else
    match Do w {| URL := latestURL; Range := None |} with
    | (Transport, w1) => (Fail NetError, w1)
    | (Answer resp, w1) =>
        if negb (StatusCode resp =? StatusOK)
        then (Fail (Msg "failed to resolve latest: HTTP status"), w1)
        else
          match read_limited 64 resp with
          | None => (Fail NetError, w1)
          | Some body =>
              let blockNumber := GoString.TrimSpace body in
              if bool_decide (blockNumber = "")
              then (Fail (Msg "empty response from latest endpoint"), w1)
              else (Ret blockNumber, w1)
          end
    end.

Definition append_bytes (c : Content) (b : string) : Content :=
  match c with
  | Bytes old => Bytes (old +:+ b)
  | StateDoc _ => Bytes b
  end.

(** [io.Copy(out, body)] into the open file at [dest], whose content so far
    is [c]: the bytes of the body are written; the copy fails when the body
    does. *)
Definition copy_body (w : World) (dest : path) (c : Content) (resp : Response)
    : option error * World :=
  let d := FS.with_tree (<[dest := File (append_bytes c (Body resp))]>
                           (FS.tree (disk w))) (disk w) in
  (if BodyFails resp then Some NetError else None, with_disk d w).

(** [downloadFile].  Every call consumes one reply before it calls itself
    again, so the recursion follows the script [sc] of replies still to
    come; [sc] is [script w] at every call. *)
Fixpoint downloadFile_from (sc : list Reply) (w : World) (url : string)
    (destPath : path) : option error * World :=
  let existingSize :=
    match FS.Stat (disk w) destPath with
    | inr stat => Size stat
    | inl _ => 0
    end in
  if url_invalid w url then (Some (Msg "invalid URL"), w)
  else
    let req := {| URL := url;
                  Range := if 0 <? existingSize then Some existingSize else None |} in
    match sc with
    | [] => (Some NetError, send req [] w)
    | Transport :: rest => (Some NetError, send req rest w)
    | Answer resp :: rest =>
        let w1 := send req rest w in
        if StatusCode resp =? StatusOK then
          match FS.WriteFile (disk w1) destPath (Bytes "") with
          | (Some e, _) => (Some (OsError e), w1)
          | (None, d) => copy_body (with_disk d w1) destPath (Bytes "") resp
          end
        else if StatusCode resp =? StatusPartialContent then
          match FS.OpenAppend (disk w1) destPath with
          | inl e => (Some (OsError e), w1)
          | inr c => copy_body w1 destPath c resp
          end
        else if StatusCode resp =? StatusRequestedRangeNotSatisfiable then
          downloadFile_from rest (with_disk (FS.Remove (disk w1) destPath).2 w1)
            url destPath
        else (Some (Msg "HTTP status"), w1)
    end.

Definition downloadFile (w : World) (url : string) (destPath : path)
    : option error * World :=
  downloadFile_from (script w) w url destPath.

(** What the pipeline writes: each entry lands below [dest]. *)
Definition unpack (dest : path) (entries : list (path * node))
    (m : gmap path node) : gmap path node :=
  foldr (fun e acc =>
           match e.1 with
           | [] => acc
           | _ => <[Join dest e.1 := e.2]> acc
           end) m entries.

(** [extractTarZst]: [zstd -d -c archive | tar -xf - -C dest]. *)
Definition extractTarZst (w : World) (archive destDir : path)
    : option error * World :=
  if negb (zstd_found w) then (Some (Msg "zstd not found: please install zstd"), w)
  else
    match FS.tree (disk w) !! archive with
    | Some (File (Bytes b)) =>
        let '(ok, entries) := untar w b in
        let d := FS.with_tree (unpack destDir entries (FS.tree (disk w))) (disk w) in
        (if ok then None else Some (Msg "exit status 1"), with_disk d w)
    | _ => (Some (Msg "exit status 1"), w)
    end.

(** [downloadSnapshot]. *)
Definition downloadSnapshot (w : World) (base network client blockNumber : string)
    (destDir : path) : option error * World :=
  let snapshotURL := base +:+ "/" +:+ network +:+ "/" +:+ client +:+ "/"
                     +:+ blockNumber +:+ "/" +:+ SnapshotFileName in
  match FS.MkdirAll (disk w) destDir with
  | (Some e, d) =>
      (Some (Wrap "failed to create snapshot directory" (OsError e)), with_disk d w)
  | (None, d) =>
      let w1 := with_disk d w in
      let archive := archivePath destDir in
      match downloadFile w1 snapshotURL archive with
      | (Some e, w2) =>
          (Some (Wrap "failed to download snapshot (partial file preserved for resume)" e), w2)
      | (None, w2) =>
          let extractedDir := dataDir destDir in
          match FS.MkdirAll (disk w2) extractedDir with
          | (Some e, d3) =>
              (Some (Wrap "failed to create extraction directory" (OsError e)),
               with_disk d3 w2)
          | (None, d3) =>
              let w3 := with_disk d3 w2 in
              match extractTarZst w3 archive extractedDir with
              | (Some e, w4) =>
                  let w5 := with_disk (FS.RemoveAll (disk w4) extractedDir).2 w4 in
                  (Some (Wrap "failed to extract snapshot (archive preserved)" e), w5)
              | (None, w4) =>
                  let w5 := with_disk (FS.Remove (disk w4) archive).2 w4 in
                  let w6 := with_disk (FS.WriteFile (disk w5) (markerPath destDir)
                                         (Bytes (timestamp w5))).2 w5 in
                  (None, w6)
              end
          end
      end
  end.

(** [EnsureSnapshot]. *)
Definition EnsureSnapshot (f : Fetcher) (w : World) (cfg : Config)
    : outcome path * World :=
  let network := GoString.ToLower (Network cfg) in
  let client := GoString.ToLower (mapClientName (Client cfg)) in
  let blockNumber :=
    if bool_decide (BlockNumber cfg = "") then "latest" else BlockNumber cfg in
  let base := if bool_decide (BaseURL cfg = "") then baseURL f else BaseURL cfg in
  let cache := if bool_decide (CacheDir cfg = []) then cacheDir f else CacheDir cfg in
  let resolved :=
    if bool_decide (blockNumber = "latest") then
      match resolveLatestBlock w base network client with
      | (Ret b, w1) => (Ret b, w1)
      | (Fail e, w1) => (Fail (Wrap "failed to resolve latest block" e), w1)
      | (Panic r, w1) => (Panic r, w1)
      end
    else (Ret blockNumber, w) in
  match resolved with
  | (Fail e, w1) => (Fail e, w1)
  | (Panic r, w1) => (Panic r, w1)
  | (Ret blockNumber, w1) =>
      let snapshotDir := entryDir cache network client blockNumber in
      let extractedDir := dataDir snapshotDir in
      match FS.Stat (disk w1) (markerPath snapshotDir) with
      | inr _ => (Ret extractedDir, w1)
      | inl _ =>
          match downloadSnapshot w1 base network client blockNumber snapshotDir with
          | (Some e, w2) => (Fail e, w2)
          | (None, w2) => (Ret extractedDir, w2)
          end
      end
  end.

End Snapshot.

(** ** The overlay manager ([internal/overlay]) *)

Module Overlay.

(** The two builds of the platform file. *)
Inductive GOOS := Linux | OtherOS.

Definition MNT_FORCE : Z := 1.
Definition MNT_DETACH : Z := 2.

(** [overlay.Config]. *)
Record Config := {
  SnapshotPath : path;
  ContainerMountPath : string
}.

(** [overlay.ManagerConfig], with the platform the package was built for. *)
Record ManagerConfig := {
  BaseDir : path;
  goos : GOOS
}.

(** [overlay.manager]: the configuration and the registry. *)
Record manager := {
  config : ManagerConfig;
  overlays : gmap string Mount
}.

Definition with_overlays (reg : gmap string Mount) (m : manager) : manager :=
  {| config := config m; overlays := reg |}.

(** The environment of the manager.  [clock] is what the next [time.Now()]
    reads, in nanoseconds.  [mounted] lists the mount points of
    [/proc/mounts]; [mount_errno] and [umount_errno] give the result of the
    mount and unmount system calls on a target ([None]: success). *)
Record World := {
  disk : FS.t;
  clock : Z;
  mounted : list path;
  proc_mounts_readable : bool;
  mount_errno : path -> option errno;
  umount_errno : path -> Z -> option errno
}.

Definition with_disk (d : FS.t) (w : World) : World :=
  {| disk := d; clock := clock w; mounted := mounted w;
     proc_mounts_readable := proc_mounts_readable w;
     mount_errno := mount_errno w; umount_errno := umount_errno w |}.

Definition with_mounted (l : list path) (w : World) : World :=
  {| disk := disk w; clock := clock w; mounted := l;
     proc_mounts_readable := proc_mounts_readable w;
     mount_errno := mount_errno w; umount_errno := umount_errno w |}.

(** [time.Now()]: successive readings differ. *)
Definition Now (w : World) : Z * World :=
  (clock w,
   {| disk := disk w; clock := clock w + 1; mounted := mounted w;
      proc_mounts_readable := proc_mounts_readable w;
      mount_errno := mount_errno w; umount_errno := umount_errno w |}).

Definition show_path (p : path) : string :=
  foldr (fun c acc => "/" +:+ c +:+ acc) "" p.

Definition statePath (m : manager) : path := Join (BaseDir (config m)) ["state.json"].

(** The directory of an overlay: [filepath.Join(BaseDir, id)] in
    [CreateOverlay], [BaseDir + "/" + id] in [cleanupDirs]. *)
Definition overlayDirOf (m : manager) (id : string) : path :=
  Join (BaseDir (config m)) [id].

(** [mountOverlay], in both builds. *)
Definition mountOverlay (m : manager) (w : World) (mount : Mount)
    : option error * World :=
  match goos (config m) with
  | OtherOS => (Some (Annot ErrOverlayNotSupported "overlayfs requires Linux"), w)
  | Linux =>
      match mount_errno w (MergedDir mount) with
      | Some e =>
          if IsPermission e then (Some (Annot ErrPermissionDenied "mount"), w)
          else (Some (Annot ErrMountFailed "mount"), w)
      | None => (None, with_mounted (MergedDir mount :: mounted w) w)
      end
  end.

(** [isMounted]: false when the mount table cannot be read. *)
Definition isMounted (m : manager) (w : World) (p : path) : bool :=
  match goos (config m) with
  | OtherOS => false
  | Linux => proc_mounts_readable w && bool_decide (p ∈ mounted w)
  end.

(** [syscall.Unmount(target, flags)]. *)
Definition Unmount (w : World) (target : path) (flags : Z) : option errno * World :=
  match umount_errno w target flags with
  | Some e => (Some e, w)
  | None => (None, with_mounted (filter (fun q => q <> target) (mounted w)) w)
  end.

(** [killProcesses]: the result of [fuser] is only logged. *)
Definition killProcesses (m : manager) (w : World) (mountPath : path)
    : option error * World := (None, w).

(** [cleanupDirs]. *)
Definition cleanupDirs (m : manager) (w : World) (mount : Mount)
    : option error * World :=
  let overlayDir := overlayDirOf m (ID mount) in
  match FS.RemoveAll (disk w) overlayDir with
  | (Some e, d) => (Some (OsError e), with_disk d w)
  | (None, d) => (None, with_disk d w)
  end.

(** [cleanupMount], in both builds; the sleeps are dropped. *)
Definition cleanupMount (m : manager) (w : World) (mount : Mount)
    : option error * World :=
  match goos (config m) with
  | OtherOS => (Some (Annot ErrOverlayNotSupported "overlayfs requires Linux"), w)
  | Linux =>
      if negb (isMounted m w (MergedDir mount)) then cleanupDirs m w mount
      else
        match Unmount w (MergedDir mount) 0 with
        | (None, w1) => cleanupDirs m w1 mount
        | (Some _, w1) =>
            match Unmount w1 (MergedDir mount) MNT_DETACH with
            | (None, w2) => cleanupDirs m w2 mount
            | (Some _, w2) =>
                let w3 := (killProcesses m w2 (MergedDir mount)).2 in
                match Unmount w3 (MergedDir mount) (Z.lor MNT_FORCE MNT_DETACH) with
                | (Some _, w4) => (Some (Annot ErrUnmountFailed "umount"), w4)
                | (None, w4) => cleanupDirs m w4 mount
                end
            end
        end
  end.

(** [persistState].  [json.MarshalIndent] cannot fail on a registry, so its
    error branch is left out. *)
Definition persistState (m : manager) (w : World) : option error * World :=
  if bool_decide (size (overlays m) = 0%nat) then
    (None, with_disk (FS.Remove (disk w) (statePath m)).2 w)
  else
    match FS.WriteFile (disk w) (statePath m) (StateDoc (overlays m)) with
    | (Some e, d) => (Some (Wrap "failed to write state file" (OsError e)), with_disk d w)
    | (None, d) => (None, with_disk d w)
    end.

(** The loop of [CreateOverlay] over the three directories. *)
Fixpoint make_dirs (d : FS.t) (dirs : list path) : option errno * FS.t :=
  match dirs with
  | [] => (None, d)
  | dir :: rest =>
      match FS.MkdirAll d dir with
      | (Some e, d') => (Some e, d')
      | (None, d') => make_dirs d' rest
      end
  end.

(** [CreateOverlay]. *)
Definition CreateOverlay (m : manager) (w : World) (containerID : string)
    (cfg : Config) : outcome Mount * manager * World :=
  match overlays m !! containerID with
  | Some _ => (Fail ErrOverlayExists, m, w)
  | None =>
      match FS.Stat (disk w) (SnapshotPath cfg) with
      | inl e =>
          if IsNotExist e
          then (Fail (Annot ErrSnapshotNotFound (show_path (SnapshotPath cfg))), m, w)
          else (Fail (Wrap "failed to stat snapshot path" (OsError e)), m, w)
      | inr info =>
          if negb (IsDir info)
          then (Fail (Annot ErrSnapshotNotDirectory (show_path (SnapshotPath cfg))), m, w)
          else if (GoString.len containerID <? 12)%nat
          then (Panic "slice bounds out of range [:12]", m, w)
          else
            let '(nanos, w1) := Now w in
            let overlayID := GoString.prefix 12 containerID +:+ "_" +:+ pretty nanos in
            let overlayDir := overlayDirOf m overlayID in
            let upperDir := Join overlayDir ["upper"] in
            let workDir := Join overlayDir ["work"] in
            let mergedDir := Join overlayDir ["merged"] in
            match make_dirs (disk w1) [upperDir; workDir; mergedDir] with
            | (Some e, d) =>
                let d' := (FS.RemoveAll d overlayDir).2 in
                (Fail (Wrap "failed to create overlay directory" (OsError e)),
                 m, with_disk d' w1)
            | (None, d) =>
                let '(created, w2) := Now (with_disk d w1) in
                let mount := {| ID := overlayID; ContainerID := containerID;
                                LowerDir := SnapshotPath cfg; UpperDir := upperDir;
                                WorkDir := workDir; MergedDir := mergedDir;
                                ContainerPath := ContainerMountPath cfg;
                                CreatedAt := created |} in
                match mountOverlay m w2 mount with
                | (Some err, w3) =>
                    let d' := (FS.RemoveAll (disk w3) overlayDir).2 in
                    (Fail err, m, with_disk d' w3)
                | (None, w3) =>
                    let m' := with_overlays (<[containerID := mount]> (overlays m)) m in
                    let w4 := (persistState m' w3).2 in
                    (Ret mount, m', w4)
                end
            end
      end
  end.

(** [CleanupOverlay]. *)
Definition CleanupOverlay (m : manager) (w : World) (containerID : string)
    : option error * manager * World :=
  match overlays m !! containerID with
  | None => (None, m, w)
  | Some mount =>
      match cleanupMount m w mount with
      | (Some err, w1) => (Some err, m, w1)
      | (None, w1) =>
          let m' := with_overlays (delete containerID (overlays m)) m in
          let w2 := (persistState m' w1).2 in
          (None, m', w2)
      end
  end.

(** One turn of a clean-up loop: the error, if any, replaces the last one. *)
Definition cleanup_step (m : manager) (acc : option error * World)
    (entry : string * Mount) : option error * World :=
  match cleanupMount m acc.2 entry.2 with
  | (Some err, w') => (Some err, w')
  | (None, w') => (acc.1, w')
  end.

(** The [range] loops visit the entries in the order of [map_to_list]. *)
Definition cleanup_each (m : manager) (w : World) (reg : gmap string Mount)
    : option error * World :=
  foldl (cleanup_step m) (None, w) (map_to_list reg).

(** [CleanupAll]. *)
Definition CleanupAll (m : manager) (w : World) : option error * manager * World :=
  let '(lastErr, w1) := cleanup_each m w (overlays m) in
  let m' := with_overlays ∅ m in
  let w2 := with_disk (FS.Remove (disk w1) (statePath m)).2 w1 in
  (lastErr, m', w2).



(** [GetOverlay]. *)
Definition GetOverlay (m : manager) (containerID : string) : option Mount :=
  overlays m !! containerID.

End Overlay.

(** ** The snapshot manager of [hivesim]

    The older client-side manager: no resume, no completion marker.  It shares
    the environment of the fetcher. *)

Module HiveSim.
Import Snapshot.

Definition SnapshotMetadataFile : string := "_snapshot_eth_getBlockByNumber.json".

(** [hivesim.SnapshotManager]: the two fields of its configuration that the
    download uses. *)
Record SnapshotManager := {
  mgrBaseURL : string;
  mgrCacheDir : path
}.

(** [SnapshotManager.downloadFile]: one plain GET into a fresh file. *)
Definition downloadFile (w : World) (url : string) (destPath : path)
    : option error * World :=
  if url_invalid w url then (Some (Msg "invalid URL"), w)
  else
    match Do w {| URL := url; Range := None |} with
    | (Transport, w1) => (Some NetError, w1)
    | (Answer resp, w1) =>
        if negb (StatusCode resp =? StatusOK) then (Some (Msg "HTTP status"), w1)
        else
          match FS.WriteFile (disk w1) destPath (Bytes "") with
          | (Some e, _) => (Some (OsError e), w1)
          | (None, d) => copy_body (with_disk d w1) destPath (Bytes "") resp
          end
    end.

(** [SnapshotManager.extractTarZst]: the command pipeline, and a fallback
    that always fails. *)
Definition extractTarZst (w : World) (archive destDir : path)
    : option error * World :=
  match Snapshot.extractTarZst w archive destDir with
  | (None, w1) => (None, w1)
  | (Some _, w1) =>
      (Some (Msg "extraction requires 'zstd' command to be installed"), w1)
  end.

(** [fetchMetadata]: whether the block description could be fetched; the
    decoding of the body is not modelled, a 200 answer with a complete body
    counts as decodable. *)
Definition fetchMetadata (w : World) (url : string) : bool * World :=
  if url_invalid w url then (false, w)
  else
    match Do w {| URL := url; Range := None |} with
    | (Transport, w1) => (false, w1)
    | (Answer resp, w1) =>
        ((StatusCode resp =? StatusOK) && negb (BodyFails resp), w1)
    end.

(** [SnapshotManager.downloadSnapshot]. *)
Definition downloadSnapshot (mgr : SnapshotManager) (w : World)
    (network client blockNumber : string) (destDir : path)
    : option error * World :=
  let prefix := mgrBaseURL mgr +:+ "/" +:+ network +:+ "/" +:+ client +:+ "/"
                +:+ blockNumber +:+ "/" in
  let snapshotURL := prefix +:+ SnapshotFileName in
  match FS.MkdirAll (disk w) destDir with
  | (Some e, d) =>
      (Some (Wrap "failed to create snapshot directory" (OsError e)), with_disk d w)
  | (None, d) =>
      let w1 := with_disk d w in
      let archive := archivePath destDir in
      match downloadFile w1 snapshotURL archive with
      | (Some e, w2) =>
          (Some (Wrap "failed to download snapshot" e),
           with_disk (FS.RemoveAll (disk w2) destDir).2 w2)
      | (None, w2) =>
          let extractedDir := dataDir destDir in
          match FS.MkdirAll (disk w2) extractedDir with
          | (Some e, d3) =>
              let w3 := with_disk d3 w2 in
              (Some (Wrap "failed to create extraction directory" (OsError e)),
               with_disk (FS.RemoveAll (disk w3) destDir).2 w3)
          | (None, d3) =>
              let w3 := with_disk d3 w2 in
              match extractTarZst w3 archive extractedDir with
              | (Some e, w4) =>
                  (Some (Wrap "failed to extract snapshot" e),
                   with_disk (FS.RemoveAll (disk w4) destDir).2 w4)
              | (None, w4) =>
                  let '(fetched, w5) := fetchMetadata w4 (prefix +:+ SnapshotMetadataFile) in
                  let metadata :=
                    Bytes (if fetched then "metadata (remote)" else "metadata (local)") in
                  let w6 := with_disk (FS.WriteFile (disk w5)
                              (Join destDir ["metadata.json"]) metadata).2 w5 in
                  (None, with_disk (FS.Remove (disk w6) archive).2 w6)
              end
          end
      end
  end.

End HiveSim.

(** ** Vocabulary of the statements *)

Module Props.
Import Snapshot.

(** The normalised pieces of a request, as [EnsureSnapshot] computes them. *)
Definition networkOf (cfg : Config) : string := GoString.ToLower (Network cfg).
Definition clientOf (cfg : Config) : string :=
  GoString.ToLower (mapClientName (Client cfg)).
Definition baseOf (f : Fetcher) (cfg : Config) : string :=
  if bool_decide (BaseURL cfg = "") then baseURL f else BaseURL cfg.
Definition cacheOf (f : Fetcher) (cfg : Config) : path :=
  if bool_decide (CacheDir cfg = []) then cacheDir f else CacheDir cfg.

(** The entry directory of a request once its block is known. *)
Definition entryOf (f : Fetcher) (cfg : Config) (block : string) : path :=
  entryDir (cacheOf f cfg) (networkOf cfg) (clientOf cfg) block.

(** The request asks for the latest block. *)
Definition wantsLatest (cfg : Config) : bool :=
  bool_decide (BlockNumber cfg = "") || bool_decide (BlockNumber cfg = "latest").

Definition latestRequest (f : Fetcher) (cfg : Config) : Request :=
  {| URL := baseOf f cfg +:+ "/" +:+ networkOf cfg +:+ "/" +:+ clientOf cfg +:+ "/latest";
     Range := None |}.

(** Nothing exists at [p] or below it. *)
Definition absent (m : gmap path node) (p : path) : Prop :=
  forall q, FS.under p q -> m !! q = None.

(** Every directory on the way down to [p], and [p] itself, exists. *)
Definition dirs_exist (m : gmap path node) (p : path) : Prop :=
  forall q, q <> [] -> q `prefix_of` p -> m !! q = Some Dir.


End Props.

Module OverlayProps.
Import Overlay Props.

(** The identifier [CreateOverlay] gives to the next overlay. *)
Definition nextOverlayID (w : World) (containerID : string) : string :=
  GoString.prefix 12 containerID +:+ "_" +:+ pretty (clock w).


(** No registered overlay is named like the state file. *)
Definition registry_ok (m : manager) : Prop :=
  map_Forall (fun _ mount => ID mount <> "state.json") (overlays m).

(** The unmount ladder of [cleanupMount] cannot fail at every step, and the
    directory of the overlay can be removed. *)
Definition cleanable (m : manager) (w : World) (mount : Mount) : Prop :=
  goos (config m) = Linux /\
  FS.fault (disk w) FS.OpRemoveAll (overlayDirOf m (ID mount)) = false /\
  (isMounted m w (MergedDir mount) = false \/
   umount_errno w (MergedDir mount) 0 = None \/
   umount_errno w (MergedDir mount) MNT_DETACH = None \/
   umount_errno w (MergedDir mount) (Z.lor MNT_FORCE MNT_DETACH) = None).

(** Every step of the unmount ladder fails on a mounted target. *)
Definition ladder_fails (m : manager) (w : World) (mount : Mount) : Prop :=
  isMounted m w (MergedDir mount) = true /\
  is_Some (umount_errno w (MergedDir mount) 0) /\
  is_Some (umount_errno w (MergedDir mount) MNT_DETACH) /\
  is_Some (umount_errno w (MergedDir mount) (Z.lor MNT_FORCE MNT_DETACH)).

(** The parts of the environment that no operation of the manager changes. *)
Definition same_tables (w w' : World) : Prop :=
  FS.fault (disk w') = FS.fault (disk w) /\
  proc_mounts_readable w' = proc_mounts_readable w /\
  mount_errno w' = mount_errno w /\
  umount_errno w' = umount_errno w.

(** A clean-up only removes: files disappear and mount points disappear. *)
Definition shrinks (w w' : World) : Prop :=
  same_tables w w' /\
  (forall q n, FS.tree (disk w') !! q = Some n -> FS.tree (disk w) !! q = Some n) /\
  (forall p, p ∈ mounted w' -> p ∈ mounted w).

(** The three directories of the next overlay. *)
Definition overlay_dirs (m : manager) (id : string) : list path :=
  [Join (overlayDirOf m id) ["upper"]; Join (overlayDirOf m id) ["work"];
   Join (overlayDirOf m id) ["merged"]].


End OverlayProps.

(** ** Concrete environments *)

Module Examples.
Import Snapshot.

Definition no_fault : FS.op -> path -> bool := fun _ _ => false.

Definition fetcher : Fetcher :=
  {| cacheDir := ["cache"]; baseURL := DefaultBaseURL |}.

Definition ok (status : Z) (body : string) : Reply :=
  Answer {| StatusCode := status; Body := body; BodyFails := false |}.

(** A pipeline that unpacks one file from any archive. *)
Definition one_file : string -> bool * list (path * node) :=
  fun _ => (true, [(["chaindata"], File (Bytes "db"))]).

Definition world (tree : gmap path node) (flt : FS.op -> path -> bool)
    (replies : list Reply) : World :=
  {| disk := {| FS.tree := tree; FS.fault := flt |};
     script := replies; requests := [];
     url_invalid := fun _ => false; zstd_found := true;
     untar := one_file; timestamp := "2026-01-01T00:00:00Z" |}.

Definition entry100 : path := ["cache"; "mainnet"; "geth"; "100"].
Definition entry200 : path := ["cache"; "mainnet"; "geth"; "200"].

Definition request (block : string) : Config :=
  {| Network := "Mainnet"; Client := "go-ethereum_default"; BlockNumber := block;
     BaseURL := "http://srv"; CacheDir := [] |}.

(** An empty cache and a server that sends the archive. *)
Definition fresh : World := world ∅ no_fault [ok 200 "archive"].


(** Block 200 is cached and complete; the server names it as the latest. *)
Definition cached200 : World :=
  world (list_to_map [(dataDir entry200, Dir);
                      (markerPath entry200, File (Bytes "2025-12-31T00:00:00Z"))])
    no_fault [ok 200 "200
"].

(** A partial archive on disk. *)
Definition partial : gmap path node :=
  list_to_map [(["cache"], Dir); (["cache"; "mainnet"], Dir);
               (["cache"; "mainnet"; "geth"], Dir); (entry100, Dir);
               (archivePath entry100, File (Bytes "xy"))].

(** The server rejects the range twice, then sends the archive. *)
Definition rejected_twice : World :=
  world partial no_fault [ok 416 ""; ok 416 ""; ok 200 "archive"].


(** The connection breaks at once. *)
Definition broken : World := world partial no_fault [Transport].

(** The archive arrives, the pipeline fails after writing one file. *)
Definition bad_archive : World :=
  {| disk := {| FS.tree := partial; FS.fault := no_fault |};
     script := [ok 206 "z"]; requests := [];
     url_invalid := fun _ => false; zstd_found := true;
     untar := fun _ => (false, [(["chaindata"], File (Bytes "d"))]);
     timestamp := "2026-01-01T00:00:00Z" |}.

End Examples.

Module OverlayExamples.
Import Overlay.

Definition linux : ManagerConfig := {| BaseDir := ["overlays"]; goos := Linux |}.

Definition host : gmap path node :=
  list_to_map [(["overlays"], Dir); (["snap"], Dir);
               (["snap"; "X"], File (Bytes "x"))].

Definition world (tree : gmap path node) (flt : FS.op -> path -> bool)
    (mounts : list path) (mnt : path -> option errno)
    (umnt : path -> Z -> option errno) : World :=
  {| disk := {| FS.tree := tree; FS.fault := flt |}; clock := 1700;
     mounted := mounts; proc_mounts_readable := true;
     mount_errno := mnt; umount_errno := umnt |}.

Definition fresh_manager : manager := {| config := linux; overlays := ∅ |}.

Definition containerID : string := "abcdef123456".
Definition snapshot : Config :=
  {| SnapshotPath := ["snap"]; ContainerMountPath := "/data" |}.

(** A healthy host. *)
Definition healthy : World :=
  world host Examples.no_fault [] (fun _ => None) (fun _ _ => None).

(** A host on which the mount system call is refused. *)
Definition mount_refused : World :=
  world host Examples.no_fault [] (fun _ => Some EPERM) (fun _ _ => None).


(** The manager and the host after one overlay was created. *)
Definition created := CreateOverlay fresh_manager healthy containerID snapshot.
Definition manager1 : manager := created.1.2.
Definition world1 : World := created.2.

(** The overlay that call makes. *)
Definition mount1 : Mount :=
  {| ID := "abcdef123456_1700"; ContainerID := "abcdef123456";
     LowerDir := ["snap"];
     UpperDir := ["overlays"; "abcdef123456_1700"; "upper"];
     WorkDir := ["overlays"; "abcdef123456_1700"; "work"];
     MergedDir := ["overlays"; "abcdef123456_1700"; "merged"];
     ContainerPath := "/data"; CreatedAt := 1701 |}.

(** The same host, where every unmount is refused from now on. *)
Definition busy : World :=
  {| disk := disk world1; clock := clock world1; mounted := mounted world1;
     proc_mounts_readable := true; mount_errno := fun _ => None;
     umount_errno := fun _ _ => Some EBUSY |}.


End OverlayExamples.

(** ** More of the fetcher, the managers and the start options *)

Module SnapshotExtra.
Import Snapshot.

(** [GetCachedSnapshotPath]; the empty string is the empty path. *)
Definition GetCachedSnapshotPath (f : Fetcher) (w : World)
    (network client blockNumber : string) : path :=
  let blockNumber := if bool_decide (blockNumber = "") then "latest" else blockNumber in
  let network := GoString.ToLower network in
  let client := GoString.ToLower (mapClientName client) in
  let extractedDir := Join (cacheDir f) [network; client; blockNumber; "data"] in
  let markerPath := Join (cacheDir f) [network; client; blockNumber; ".complete"] in
  match FS.Stat (disk w) markerPath with
  | inr _ => extractedDir
  | inl _ => []
  end.

End SnapshotExtra.

Module HiveSimExtra.
Import Snapshot HiveSim.

Definition DefaultSnapshotBaseURL : string := "https://snapshots.ethpandaops.io".

(** [hivesim.SnapshotConfig], without its HTTP client. *)
Record SnapshotConfig := {
  cfgBaseURL : string;
  cfgCacheDir : path;
  cfgNetwork : string;
  cfgClient : string;
  cfgBlockNumber : string
}.

(** [NewSnapshotManager]. *)
Definition NewSnapshotManager (config : SnapshotConfig) : SnapshotManager :=
  {| mgrBaseURL := if bool_decide (cfgBaseURL config = "")
                   then DefaultSnapshotBaseURL else cfgBaseURL config;
     mgrCacheDir := if bool_decide (cfgCacheDir config = [])
                    then ["var"; "lib"; "hive"; "snapshots"] else cfgCacheDir config |}.

(** [SnapshotManager.EnsureSnapshotAt]. *)
Definition EnsureSnapshotAt (mgr : SnapshotManager) (w : World)
    (network client blockNumber : string) : outcome path * World :=
  let network := GoString.ToLower network in
  let client := GoString.ToLower client in
  let snapshotDir := Join (mgrCacheDir mgr) [network; client; blockNumber] in
  let extractedDir := Join snapshotDir ["data"] in
  let metadataPath := Join snapshotDir ["metadata.json"] in
  let fetch :=
    match downloadSnapshot mgr w network client blockNumber snapshotDir with
    | (Some e, w') => (Fail e, w')
    | (None, w') => (Ret extractedDir, w')
    end in
  match FS.Stat (disk w) extractedDir with
  | inr _ =>
      match FS.Stat (disk w) metadataPath with
      | inr _ => (Ret extractedDir, w)
      | inl _ => fetch
      end
  | inl _ => fetch
  end.

(** [SnapshotManager.EnsureSnapshot]. *)
Definition EnsureSnapshot (mgr : SnapshotManager) (w : World)
    (network client : string) : outcome path * World :=
  EnsureSnapshotAt mgr w network client "latest".


(** [FetchSnapshotWithConfig]. *)
Definition FetchSnapshotWithConfig (w : World) (config : SnapshotConfig)
    : outcome path * World :=
  if bool_decide (cfgNetwork config = "") then (Fail (Msg "network is required"), w)
  else if bool_decide (cfgClient config = "") then (Fail (Msg "client is required"), w)
  else
    let mgr := NewSnapshotManager config in
    let blockNumber :=
      if bool_decide (cfgBlockNumber config = "") then "latest"
      else cfgBlockNumber config in
    EnsureSnapshotAt mgr w (cfgNetwork config) (cfgClient config) blockNumber.


End HiveSimExtra.

Module OverlayExtra.
Import Overlay.




End OverlayExtra.

Module StartOptions.

(** [simapi.OverlaySpec]. *)
Record OverlaySpec := {
  SnapshotPath : string;
  ContainerPath : string;
  Network : string;
  Client : string;
  BlockNumber : string;
  URL : string
}.

(** [simapi.NodeConfig]. *)
Record NodeConfig := {
  NodeClient : string;
  Networks : list string;
  Environment : gmap string string;
  Overlays : list OverlaySpec
}.

(** Where the content of a client file comes from: a host file, or a source
    function given by the test, named here by a number. *)
Inductive FileSource :=
| fileAsSrc (hostPath : string)
| dynamicSrc (id : nat).

(** [hivesim.clientSetup]. *)
Record clientSetup := {
  setupConfig : NodeConfig;
  files : gmap string FileSource
}.

(** A start option is what its [apply] does to the setup. *)
Definition StartOption : Type := clientSetup -> clientSetup.

Definition with_networks (l : list string) (s : clientSetup) : clientSetup :=
  {| setupConfig := {| NodeClient := NodeClient (setupConfig s); Networks := l;
                       Environment := Environment (setupConfig s);
                       Overlays := Overlays (setupConfig s) |};
     files := files s |}.

Definition with_environment (e : gmap string string) (s : clientSetup) : clientSetup :=
  {| setupConfig := {| NodeClient := NodeClient (setupConfig s);
                       Networks := Networks (setupConfig s);
                       Environment := e;
                       Overlays := Overlays (setupConfig s) |};
     files := files s |}.

Definition with_overlay_specs (l : list OverlaySpec) (s : clientSetup) : clientSetup :=
  {| setupConfig := {| NodeClient := NodeClient (setupConfig s);
                       Networks := Networks (setupConfig s);
                       Environment := Environment (setupConfig s);
                       Overlays := l |};
     files := files s |}.

Definition with_files (f : gmap string FileSource) (s : clientSetup) : clientSetup :=
  {| setupConfig := setupConfig s; files := f |}.

(** [WithInitialNetworks]. *)
Definition WithInitialNetworks (networks : list string) : StartOption :=
  fun setup => with_networks networks setup.

(** [WithStaticFiles]: the [range] loop stores every pair. *)
Definition WithStaticFiles (initFiles : gmap string string) : StartOption :=
  fun setup =>
    with_files (map_fold (fun k v acc => <[k := fileAsSrc v]> acc) (files setup) initFiles)
      setup.

(** [WithDynamicFile]. *)
Definition WithDynamicFile (dstPath : string) (src : nat) : StartOption :=
  fun setup => with_files (<[dstPath := dynamicSrc src]> (files setup)) setup.

(** [Bundle]. *)
Definition Bundle (option : list StartOption) : StartOption :=
  fun setup => foldl (fun s opt => opt s) setup option.

(** [Params] and its methods. *)
Definition Params_apply (p : gmap string string) : StartOption :=
  fun setup =>
    with_environment
      (map_fold (fun k v acc => <[k := v]> acc) (Environment (setupConfig setup)) p) setup.

Definition Params_Copy (p : gmap string string) : gmap string string :=
  map_fold (fun k v cpy => <[k := v]> cpy) ∅ p.

Definition Params_Set (p : gmap string string) (key value : string)
    : gmap string string :=
  <[key := value]> (Params_Copy p).

Definition add_overlay (spec : OverlaySpec) : StartOption :=
  fun setup => with_overlay_specs (Overlays (setupConfig setup) ++ [spec]) setup.

(** [WithOverlaySnapshot]. *)
Definition WithOverlaySnapshot (snapshotPath containerPath : string) : StartOption :=
  add_overlay {| SnapshotPath := snapshotPath; ContainerPath := containerPath;
                 Network := ""; Client := ""; BlockNumber := ""; URL := "" |}.

(** [WithRemoteSnapshot]. *)
Definition WithRemoteSnapshot (network client containerPath : string) : StartOption :=
  add_overlay {| SnapshotPath := ""; ContainerPath := containerPath;
                 Network := network; Client := client; BlockNumber := ""; URL := "" |}.

(** [WithRemoteSnapshotAt]. *)
Definition WithRemoteSnapshotAt (network client blockNumber containerPath : string)
    : StartOption :=
  add_overlay {| SnapshotPath := ""; ContainerPath := containerPath;
                 Network := network; Client := client; BlockNumber := blockNumber;
                 URL := "" |}.

(** [WithRemoteSnapshotURL]. *)
Definition WithRemoteSnapshotURL (network client baseURL containerPath : string)
    : StartOption :=
  add_overlay {| SnapshotPath := ""; ContainerPath := containerPath;
                 Network := network; Client := client; BlockNumber := "";
                 URL := baseURL |}.

(** [hivesim.ClientSnapshotConfig]. *)
Record ClientSnapshotConfig := {
  snapNetwork : string;
  snapURL : string;
  snapBlockNumber : string;
  snapContainerPath : string;
  snapCacheDir : string
}.

(** [hivesim.ClientDefinition]; a [nil] snapshot is [None]. *)
Record ClientDefinition := {
  Name : string;
  Version : string;
  Roles : list string;
  Snapshot : option ClientSnapshotConfig
}.

(** [ClientDefinition.HasRole]. *)
Definition HasRole (m : ClientDefinition) (role : string) : bool :=
  bool_decide (role ∈ Roles m).

(** [ClientDefinition.HasSnapshot]. *)
Definition HasSnapshot (c : ClientDefinition) : bool :=
  match Snapshot c with
  | Some snap => negb (bool_decide (snapNetwork snap = ""))
  | None => false
  end.

(** [ClientSnapshotConfig.SnapshotContainerPath]. *)
Definition SnapshotContainerPath (c : ClientSnapshotConfig) : string :=
  if bool_decide (snapContainerPath c = "") then "/data" else snapContainerPath c.

(** [WithClientSnapshot]; a [nil] option is [None]. *)
Definition WithClientSnapshot (client : ClientDefinition) : option StartOption :=
  if negb (HasSnapshot client) then None
  else
    match Snapshot client with
    | None => None
    | Some snap =>
        let containerPath := SnapshotContainerPath snap in
        Some (add_overlay {| SnapshotPath := ""; ContainerPath := containerPath;
                             Network := snapNetwork snap; Client := Name client;
                             BlockNumber := snapBlockNumber snap;
                             URL := snapURL snap |})
    end.

End StartOptions.

(** ** Vocabulary of the further properties *)

Module ExtraProps.
Import Snapshot HiveSim HiveSimExtra.

(** The part of a client name that [mapClientName] looks up. *)
Definition baseNameOf (hiveName : string) : string :=
  match GoString.IndexByte "_"%char hiveName with
  | Some (S idx) => GoString.prefix (S idx) hiveName
  | _ => hiveName
  end.

(** The URL [downloadSnapshot] of hivesim asks for the archive. *)
Definition hivesim_archive_url (mgr : SnapshotManager) (network client block : string)
    : string :=
  (mgrBaseURL mgr +:+ "/" +:+ network +:+ "/" +:+ client +:+ "/" +:+ block +:+ "/")
    +:+ SnapshotFileName.

End ExtraProps.

Module StartOptionProps.
Import StartOptions.

(** The options that ask for an overlay, each with the request it adds to
    the setup. *)
Inductive overlay_option : StartOption -> OverlaySpec -> Prop :=
| local_snapshot (snapshotPath containerPath : string) :
    overlay_option (WithOverlaySnapshot snapshotPath containerPath)
      {| SnapshotPath := snapshotPath; ContainerPath := containerPath;
         Network := ""; Client := ""; BlockNumber := ""; URL := "" |}
| remote_snapshot (network client containerPath : string) :
    overlay_option (WithRemoteSnapshot network client containerPath)
      {| SnapshotPath := ""; ContainerPath := containerPath;
         Network := network; Client := client; BlockNumber := ""; URL := "" |}
| remote_snapshot_at (network client blockNumber containerPath : string) :
    overlay_option (WithRemoteSnapshotAt network client blockNumber containerPath)
      {| SnapshotPath := ""; ContainerPath := containerPath;
         Network := network; Client := client; BlockNumber := blockNumber;
         URL := "" |}
| remote_snapshot_url (network client baseURL containerPath : string) :
    overlay_option (WithRemoteSnapshotURL network client baseURL containerPath)
      {| SnapshotPath := ""; ContainerPath := containerPath;
         Network := network; Client := client; BlockNumber := ""; URL := baseURL |}
| client_snapshot (client : ClientDefinition) (snap : ClientSnapshotConfig)
    (opt : StartOption) :
    Snapshot client = Some snap ->
    WithClientSnapshot client = Some opt ->
    overlay_option opt
      {| SnapshotPath := ""; ContainerPath := SnapshotContainerPath snap;
         Network := snapNetwork snap; Client := Name client;
         BlockNumber := snapBlockNumber snap; URL := snapURL snap |}.

End StartOptionProps.

(** ** Facts about the file system *)

Section FSFacts.
Import FS.

Lemma under_refl (p : path) : under p p.
Proof. exists []. by rewrite app_nil_r. Qed.

Lemma under_app (p q : path) : under p (p ++ q).
Proof. by exists q. Qed.

Lemma under_trans (p q r : path) : under p q -> under q r -> under p r.
Proof. unfold under. intros. by etrans. Qed.

Lemma parent_snoc (p : path) (c : string) : parent (p ++ [c]) = p.
Proof. unfold parent. apply removelast_last. Qed.

(** A path that is a sibling of [p ++ [c]] is not below it. *)
Lemma not_under_sibling (p : path) (c d : string) (r : path) :
  c <> d -> ~ under (p ++ [c]) (p ++ d :: r).
Proof.
  intros Hne [k Hk]. rewrite <- app_assoc in Hk.
  apply app_inv_head in Hk. simpl in Hk. congruence.
Qed.

Lemma mkdirs_mono flt rest : forall cur m e m' q n,
  mkdirs flt cur rest m = (e, m') -> m !! q = Some n -> m' !! q = Some n.
Proof.
  induction rest as [|c rest IH]; intros cur m e m' q n H Hq; simpl in H.
  - by inversion H; subst.
  - destruct (m !! (cur ++ [c])) as [[c0|]|] eqn:Hc.
    + by inversion H; subst.
    + eauto.
    + destruct (flt (cur ++ [c])); [by inversion H; subst|].
      eapply IH; [exact H|].
      rewrite lookup_insert_ne; [done|]. intros Heq. subst q. congruence.
Qed.

(** What [mkdirs] changes: it only creates directories, at paths between
    [cur] and [cur ++ rest]. *)
Lemma mkdirs_changes flt rest : forall cur m e m' q,
  mkdirs flt cur rest m = (e, m') ->
  m' !! q = m !! q \/
  (m !! q = None /\ m' !! q = Some Dir /\ q <> cur /\ under cur q /\
   q `prefix_of` cur ++ rest).
Proof.
  induction rest as [|c rest IH]; intros cur m e m' q H; simpl in H.
  - left. by inversion H; subst.
  - assert (Hstep : forall m0, mkdirs flt (cur ++ [c]) rest m0 = (e, m') ->
              m' !! q = m0 !! q \/
              (m0 !! q = None /\ m' !! q = Some Dir /\ q <> cur /\ under cur q /\
               q `prefix_of` cur ++ c :: rest)).
    { intros m0 H0. destruct (IH _ _ _ _ q H0) as [Heq|(Hn & Hd & Hne & Hu & Hp)].
      - by left.
      - right. repeat split; try done.
        + intros ->. destruct Hu as [k Hk].
          rewrite <- app_assoc in Hk.
          rewrite <- (app_nil_r cur) in Hk at 1.
          apply app_inv_head in Hk. discriminate.
        + eapply under_trans; [apply (under_app cur [c])|done].
        + by rewrite <- app_assoc in Hp. }
    destruct (m !! (cur ++ [c])) as [[c0|]|] eqn:Hc.
    + left. by inversion H; subst.
    + apply Hstep. exact H.
    + destruct (flt (cur ++ [c])); [left; by inversion H; subst|].
      destruct (Hstep _ H) as [Heq|(Hn & Hd & Hne & Hu & Hp)].
      * destruct (decide (q = cur ++ [c])) as [->|Hq].
        -- right. rewrite Heq, lookup_insert_eq. repeat split; try done.
           ++ intros Hk. rewrite <- (app_nil_r cur) in Hk at 2.
              apply app_inv_head in Hk. discriminate.
           ++ apply under_app.
           ++ exists rest. by rewrite <- app_assoc.
        -- left. by rewrite Heq, lookup_insert_ne.
      * destruct (decide (q = cur ++ [c])) as [->|Hq].
        -- by rewrite lookup_insert_eq in Hn.
        -- right. rewrite lookup_insert_ne in Hn by done. done.
Qed.

(** After a successful [mkdirs] every directory of the way exists. *)
Lemma mkdirs_ok flt rest : forall cur m m' pre,
  mkdirs flt cur rest m = (None, m') ->
  pre <> [] -> pre `prefix_of` rest -> m' !! (cur ++ pre) = Some Dir.
Proof.
  induction rest as [|c rest IH]; intros cur m m' pre H Hne Hpre; simpl in H.
  - apply prefix_nil_inv in Hpre. done.
  - destruct pre as [|c' pre]; [done|].
    assert (c' = c) as -> by (by apply prefix_cons_inv_1 in Hpre).
    apply prefix_cons_inv_2 in Hpre.
    assert (Hgo : forall m0, mkdirs flt (cur ++ [c]) rest m0 = (None, m') ->
              m0 !! (cur ++ [c]) = Some Dir -> m' !! (cur ++ c :: pre) = Some Dir).
    { intros m0 H0 Hc0. destruct pre as [|c2 pre].
      - eapply mkdirs_mono; eauto.
      - replace (cur ++ c :: c2 :: pre) with ((cur ++ [c]) ++ c2 :: pre)
          by (by rewrite <- app_assoc).
        eapply IH; eauto. }
    destruct (m !! (cur ++ [c])) as [[c0|]|] eqn:Hc; [done| |].
    + by apply (Hgo m).
    + destruct (flt (cur ++ [c])); [done|].
      apply (Hgo _ H). by rewrite lookup_insert_eq.
Qed.

Lemma MkdirAll_fault (s : t) (p : path) e s' :
  MkdirAll s p = (e, s') -> fault s' = fault s.
Proof.
  unfold MkdirAll. destruct (mkdirs _ _ _ _) as [e0 m0]. by intros [= <- <-].
Qed.

Lemma MkdirAll_mono (s : t) (p : path) e s' q n :
  MkdirAll s p = (e, s') -> tree s !! q = Some n -> tree s' !! q = Some n.
Proof.
  unfold MkdirAll. destruct (mkdirs _ _ _ _) as [e0 m0] eqn:H.
  intros [= <- <-]. simpl. eapply mkdirs_mono; eauto.
Qed.

Lemma MkdirAll_ok (s : t) (p : path) s' :
  MkdirAll s p = (None, s') -> p <> [] -> tree s' !! p = Some Dir.
Proof.
  unfold MkdirAll. destruct (mkdirs _ _ _ _) as [e0 m0] eqn:H.
  intros [= -> <-] Hne. simpl.
  by apply (mkdirs_ok _ _ [] _ _ p H).
Qed.


Lemma MkdirAll_changes (s : t) (p : path) e s' q :
  MkdirAll s p = (e, s') ->
  tree s' !! q = tree s !! q \/
  (tree s !! q = None /\ tree s' !! q = Some Dir /\ q <> [] /\ q `prefix_of` p).
Proof.
  unfold MkdirAll. destruct (mkdirs _ _ _ _) as [e0 m0] eqn:H.
  intros [= <- <-]. simpl.
  destruct (mkdirs_changes _ _ _ _ _ _ q H) as [?|(?&?&?&?&?)]; [by left|by right].
Qed.

Lemma RemoveAll_fault (s : t) (p : path) : fault (RemoveAll s p).2 = fault s.
Proof. unfold RemoveAll. by destruct (fault s OpRemoveAll p). Qed.

Lemma RemoveAll_lookup (s : t) (p q : path) n :
  tree (RemoveAll s p).2 !! q = Some n -> tree s !! q = Some n.
Proof.
  unfold RemoveAll. destruct (fault s OpRemoveAll p); simpl; [done|].
  rewrite map_lookup_filter_Some. tauto.
Qed.

Lemma RemoveAll_other (s : t) (p q : path) :
  ~ under p q -> tree (RemoveAll s p).2 !! q = tree s !! q.
Proof.
  intros Hq. unfold RemoveAll. destruct (fault s OpRemoveAll p); simpl; [done|].
  destruct (tree s !! q) as [n|] eqn:E.
  - by apply map_lookup_filter_Some.
  - apply map_lookup_filter_None. left. done.
Qed.

Lemma RemoveAll_gone (s : t) (p : path) :
  fault s OpRemoveAll p = false -> Props.absent (tree (RemoveAll s p).2) p.
Proof.
  intros Hf q Hq. unfold RemoveAll. rewrite Hf. simpl.
  apply map_lookup_filter_None. right. intros n _. simpl. tauto.
Qed.

Lemma RemoveAll_ok_gone (s : t) (p : path) s' :
  RemoveAll s p = (None, s') -> Props.absent (tree s') p.
Proof.
  intros H. assert (Hf : fault s OpRemoveAll p = false).
  { unfold RemoveAll in H. by destruct (fault s OpRemoveAll p). }
  replace s' with (RemoveAll s p).2 by (by rewrite H).
  by apply RemoveAll_gone.
Qed.

(** Removing a tree that does not exist changes nothing. *)
Lemma RemoveAll_absent (s : t) (p : path) :
  Props.absent (tree s) p -> tree (RemoveAll s p).2 = tree s.
Proof.
  intros Habs. apply map_eq. intros q.
  destruct (decide (under p q)) as [Hu|Hu].
  - rewrite (Habs q Hu). destruct (tree (RemoveAll s p).2 !! q) eqn:E; [|done].
    apply RemoveAll_lookup in E. by rewrite (Habs q Hu) in E.
  - by apply RemoveAll_other.
Qed.

Lemma Remove_fault (s : t) (p : path) : fault (Remove s p).2 = fault s.
Proof.
  unfold Remove. destruct (fault s OpRemove p); [done|].
  destruct (tree s !! p) as [[c|]|]; try done.
  by destruct (has_child (tree s) p).
Qed.

Lemma Remove_lookup (s : t) (p q : path) n :
  tree (Remove s p).2 !! q = Some n -> tree s !! q = Some n.
Proof.
  unfold Remove. destruct (fault s OpRemove p); [done|].
  destruct (tree s !! p) as [[c|]|] eqn:E; simpl; try done.
  - intros H. apply lookup_delete_Some in H. tauto.
  - destruct (has_child (tree s) p); simpl; [done|].
    intros H. apply lookup_delete_Some in H. tauto.
Qed.

Lemma Remove_other (s : t) (p q : path) :
  q <> p -> tree (Remove s p).2 !! q = tree s !! q.
Proof.
  intros Hq. unfold Remove. destruct (fault s OpRemove p); [done|].
  destruct (tree s !! p) as [[c|]|] eqn:E; simpl; try done.
  - by rewrite lookup_delete_ne.
  - destruct (has_child (tree s) p); simpl; [done|]. by rewrite lookup_delete_ne.
Qed.

(** Removing what is a regular file, or missing, leaves nothing there. *)
Lemma Remove_gone (s : t) (p : path) :
  fault s OpRemove p = false -> tree s !! p <> Some Dir ->
  tree (Remove s p).2 !! p = None.
Proof.
  intros Hf Hd. unfold Remove. rewrite Hf.
  destruct (tree s !! p) as [[c|]|] eqn:E; simpl; try done.
  by rewrite lookup_delete_eq.
Qed.

Lemma WriteFile_fault (s : t) (p : path) c : fault (WriteFile s p c).2 = fault s.
Proof.
  unfold WriteFile. destruct (fault s OpWrite p); [done|].
  destruct (tree s !! p) as [[c0|]|]; try done;
    by destruct (parent_is_dir (tree s) p).
Qed.

Lemma WriteFile_other (s : t) (p q : path) c :
  q <> p -> tree (WriteFile s p c).2 !! q = tree s !! q.
Proof.
  intros Hq. unfold WriteFile. destruct (fault s OpWrite p); [done|].
  destruct (tree s !! p) as [[c0|]|]; try done;
    destruct (parent_is_dir (tree s) p); simpl; try done;
    by rewrite lookup_insert_ne.
Qed.

(** A write into an existing directory succeeds unless it is made to fail
    or the target is a directory. *)
Lemma WriteFile_written (s : t) (dir : path) (name : string) c :
  fault s OpWrite (dir ++ [name]) = false ->
  tree s !! (dir ++ [name]) <> Some Dir ->
  (dir = [] \/ tree s !! dir = Some Dir) ->
  WriteFile s (dir ++ [name]) c =
    (None, with_tree (<[dir ++ [name] := File c]> (tree s)) s).
Proof.
  intros Hf Hd Hp. unfold WriteFile. rewrite Hf.
  assert (Hpar : parent_is_dir (tree s) (dir ++ [name]) = true).
  { unfold parent_is_dir. rewrite parent_snoc.
    destruct (dir ++ [name]) eqn:E; [by destruct dir|].
    destruct dir as [|d0 dir]; [done|].
    destruct Hp as [?|Hp]; [done|]. by rewrite Hp. }
  rewrite Hpar. by destruct (tree s !! (dir ++ [name])) as [[c0|]|].
Qed.


End FSFacts.

(** ** Facts about the fetcher *)

Section SnapshotFacts.
Import Snapshot Props.

Lemma copy_body_spec w dest c resp e w' :
  copy_body w dest c resp = (e, w') ->
  FS.fault (disk w') = FS.fault (disk w) /\
  (exists c', FS.tree (disk w') !! dest = Some (File c')) /\
  (forall q, q <> dest -> FS.tree (disk w') !! q = FS.tree (disk w) !! q).
Proof.
  unfold copy_body. intros [= <- <-]. simpl. split; [done|]. split.
  - eexists. apply lookup_insert_eq.
  - intros q Hq. by rewrite lookup_insert_ne.
Qed.


Lemma unpack_other dest entries m q :
  ~ (FS.under dest q /\ q <> dest) -> unpack dest entries m !! q = m !! q.
Proof.
  intros Hq. induction entries as [|[rel n] es IH]; simpl; [done|].
  destruct rel as [|c rel]; [done|].
  rewrite lookup_insert_ne; [done|].
  intros <-. apply Hq. split; [apply under_app|].
  unfold Join. intros Heq. rewrite <- (app_nil_r dest) in Heq at 2.
  apply app_inv_head in Heq. discriminate.
Qed.

Lemma extractTarZst_spec w archive dest e w' :
  extractTarZst w archive dest = (e, w') ->
  FS.fault (disk w') = FS.fault (disk w) /\
  (forall q, ~ (FS.under dest q /\ q <> dest) ->
             FS.tree (disk w') !! q = FS.tree (disk w) !! q).
Proof.
  unfold extractTarZst. destruct (negb (zstd_found w)); [by intros [= <- <-]|].
  destruct (FS.tree (disk w) !! archive) as [[[b|reg]|]|]; try by intros [= <- <-].
  destruct (untar w b) as [ok entries]. intros [= <- <-]. simpl.
  split; [done|]. intros q Hq. by apply unpack_other.
Qed.


Lemma data_not_archive entry : dataDir entry <> archivePath entry.
Proof.
  unfold dataDir, archivePath, Join. intros H. apply app_inv_head in H.
  discriminate.
Qed.

Lemma sibling_not_below_data entry (name : string) (q : path) :
  q = Join entry [name] -> name <> "data" ->
  ~ (FS.under (dataDir entry) q /\ q <> dataDir entry).
Proof.
  intros -> Hne [Hu _]. unfold dataDir, Join in Hu.
  by apply (not_under_sibling entry "data" name []) in Hu.
Qed.

End SnapshotFacts.

Section SnapshotRun.
Import Snapshot Props.

Lemma not_own_child (p : path) (c : string) : p <> p ++ [c].
Proof.
  intros H. rewrite <- (app_nil_r p) in H at 1.
  apply app_inv_head in H. discriminate.
Qed.

Lemma entry_not_below_data entry :
  ~ (FS.under (dataDir entry) entry /\ entry <> dataDir entry).
Proof.
  intros [[k Hk] _]. unfold dataDir, Join in Hk.
  rewrite <- app_assoc in Hk. rewrite <- (app_nil_r entry) in Hk at 1.
  apply app_inv_head in Hk. discriminate.
Qed.



Lemma resolveLatestBlock_disk w base network client r w1 :
  resolveLatestBlock w base network client = (r, w1) -> disk w1 = disk w.
Proof.
  unfold resolveLatestBlock. destruct (url_invalid w _); [by intros [= <- <-]|].
  unfold Do. destruct (script w) as [|[|resp] rest]; simpl;
    try by intros [= <- <-].
  destruct (negb _); [by intros [= <- <-]|].
  destruct (read_limited 64 resp); [|by intros [= <- <-]].
  destruct (bool_decide _); by intros [= <- <-].
Qed.

Lemma resolveLatestBlock_requests w base network client block w1 :
  resolveLatestBlock w base network client = (Ret block, w1) ->
  requests w1 = requests w ++
    [{| URL := base +:+ "/" +:+ network +:+ "/" +:+ client +:+ "/latest";
        Range := None |}].
Proof.
  unfold resolveLatestBlock. destruct (url_invalid w _); [done|].
  unfold Do. destruct (script w) as [|[|resp] rest]; simpl; try done.
  - destruct (negb _); [done|]. destruct (read_limited 64 resp); [|done].
    destruct (bool_decide (GoString.TrimSpace _ = _)); [done|].
    by intros [= _ <-].
Qed.

End SnapshotRun.

(** ** The fetcher: what a successful call leaves behind *)

Section EnsureSnapshotClaims.
Import Snapshot Props.




(** C2, as amended.  Let [block] be the block the call works with: the one
    asked for, or the one the server names when the latest is asked for,
    which costs one request.  If the marker of that entry is found, the call
    returns the [data] path of the entry, leaves the disk as it was and
    issues no further request. *)
Theorem EnsureSnapshot_cached f w cfg block w1 n :
  (if wantsLatest cfg
   then resolveLatestBlock w (baseOf f cfg) (networkOf cfg) (clientOf cfg)
        = (Ret block, w1)
   else block = BlockNumber cfg /\ w1 = w) ->
  FS.Stat (disk w1) (markerPath (entryOf f cfg block)) = inr n ->
  EnsureSnapshot f w cfg = (Ret (dataDir (entryOf f cfg block)), w1) /\
  disk w1 = disk w /\
  requests w1 = requests w ++ (if wantsLatest cfg then [latestRequest f cfg] else []).
Proof.
  intros Hres Hst. unfold EnsureSnapshot, wantsLatest in *.
  fold (networkOf cfg) (clientOf cfg) (baseOf f cfg) (cacheOf f cfg).
  destruct (bool_decide (BlockNumber cfg = "")) eqn:E1; simpl in Hres.
  - rewrite bool_decide_eq_true_2 by done. rewrite Hres.
    fold (entryOf f cfg block). rewrite Hst. split; [done|].
    split; [by eapply resolveLatestBlock_disk|].
    by apply resolveLatestBlock_requests in Hres.
  - destruct (bool_decide (BlockNumber cfg = "latest")) eqn:E2; simpl in Hres.
    + rewrite Hres. fold (entryOf f cfg block). rewrite Hst. split; [done|].
      split; [by eapply resolveLatestBlock_disk|].
      by apply resolveLatestBlock_requests in Hres.
    + destruct Hres as [-> ->]. fold (entryOf f cfg (BlockNumber cfg)).
      rewrite Hst. by rewrite app_nil_r.
Qed.

Lemma EnsureSnapshot_cached_witness :
  EnsureSnapshot Examples.fetcher Examples.cached200 (Examples.request "200")
    = (Ret (dataDir (entryOf Examples.fetcher (Examples.request "200") "200")),
       Examples.cached200) /\
  disk Examples.cached200 = disk Examples.cached200 /\
  requests Examples.cached200 =
    requests Examples.cached200 ++
      (if wantsLatest (Examples.request "200")
       then [latestRequest Examples.fetcher (Examples.request "200")] else []).
Proof.
  apply (EnsureSnapshot_cached Examples.fetcher Examples.cached200
           (Examples.request "200") "200" Examples.cached200
           (File (Bytes "2025-12-31T00:00:00Z"))).
  - vm_compute. split; reflexivity.
  - vm_compute. reflexivity.
Defined.

(** C2 fails as stated: the entry of the latest block is complete, and a
    request for the latest block still asks the server once. *)
Lemma EnsureSnapshot_latest_asks_server :
  is_Some (FS.tree (disk Examples.cached200) !! markerPath Examples.entry200) /\
  (EnsureSnapshot Examples.fetcher Examples.cached200 (Examples.request "latest")).1
    = Ret (dataDir Examples.entry200) /\
  requests Examples.cached200 = [] /\
  requests (EnsureSnapshot Examples.fetcher Examples.cached200
              (Examples.request "latest")).2
    = [{| URL := "http://srv/mainnet/geth/latest"; Range := None |}].
Proof. vm_compute. repeat split; try reflexivity. by eexists. Qed.

End EnsureSnapshotClaims.

(** ** The fetcher: range rejections and failures *)

Section DownloadClaims.
Import Snapshot Props.

(** C3, as amended.  Every 416 answer makes [downloadFile] remove the local
    file, whatever that removal returns, and start over; nothing counts the
    attempts.  After any number of 416 answers in a row the next request is
    issued, one request per answer has been recorded, nothing but the
    destination has changed, and the destination is gone when it could be
    removed. *)
Theorem downloadFile_retries_every_416 (rejected : list Response) :
  forall (sc : list Reply) (w : World) (url : string) (dest : path),
  Forall (fun r => StatusCode r = StatusRequestedRangeNotSatisfiable) rejected ->
  url_invalid w url = false ->
  exists w',
    downloadFile_from (map Answer rejected ++ sc) w url dest
      = downloadFile_from sc w' url dest /\
    length (requests w') = (length (requests w) + length rejected)%nat /\
    url_invalid w' = url_invalid w /\
    FS.fault (disk w') = FS.fault (disk w) /\
    (forall q, q <> dest -> FS.tree (disk w') !! q = FS.tree (disk w) !! q) /\
    (FS.tree (disk w) !! dest = None -> FS.tree (disk w') !! dest = None) /\
    (rejected <> [] -> FS.fault (disk w) FS.OpRemove dest = false ->
     FS.tree (disk w) !! dest <> Some Dir -> FS.tree (disk w') !! dest = None).
Proof.
  induction rejected as [|r rs IH]; intros sc w url dest Hall Hurl.
  - exists w. simpl. repeat split; try done.
  - inversion Hall as [|? ? Hr Hrs]; subst.
    set (w1 := with_disk
                 (FS.Remove (disk w) dest).2
                 (send {| URL := url;
                          Range := if 0 <? match FS.Stat (disk w) dest with
                                           | inr stat => Size stat
                                           | inl _ => 0
                                           end
                                   then Some match FS.Stat (disk w) dest with
                                             | inr stat => Size stat
                                             | inl _ => 0
                                             end
                                   else None |}
                       (map Answer rs ++ sc) w)).
    destruct (IH sc w1 url dest Hrs Hurl)
      as (w' & Heq & Hlen & Hinv & Hf & Hoth & Hkeep & _).
    exists w'. simpl. rewrite Hurl, Hr. simpl.
    fold w1. split; [exact Heq|].
    split; [rewrite Hlen; simpl; rewrite length_app; simpl; lia|].
    split; [done|].
    split; [rewrite Hf; apply Remove_fault|].
    split; [|split].
    + intros q Hq. rewrite (Hoth q Hq). by apply Remove_other.
    + intros Hnone. apply Hkeep. simpl.
      destruct (FS.tree (FS.Remove (disk w) dest).2 !! dest) as [n|] eqn:E; [|done].
      apply Remove_lookup in E. congruence.
    + intros _ Hrm Hnd. apply Hkeep. by apply Remove_gone.
Qed.

Lemma downloadFile_retries_every_416_witness :
  exists w',
    downloadFile_from
      (map Answer [ {| StatusCode := 416; Body := ""; BodyFails := false |};
                    {| StatusCode := 416; Body := ""; BodyFails := false |} ]
         ++ [Examples.ok 200 "archive"])
      Examples.rejected_twice "http://srv/a" (archivePath Examples.entry100)
      = downloadFile_from [Examples.ok 200 "archive"] w' "http://srv/a"
          (archivePath Examples.entry100) /\
    length (requests w') = (length (requests Examples.rejected_twice) + 2)%nat /\
    url_invalid w' = url_invalid Examples.rejected_twice /\
    FS.fault (disk w') = FS.fault (disk Examples.rejected_twice) /\
    (forall q, q <> archivePath Examples.entry100 ->
               FS.tree (disk w') !! q = FS.tree (disk Examples.rejected_twice) !! q) /\
    (FS.tree (disk Examples.rejected_twice) !! archivePath Examples.entry100 = None ->
     FS.tree (disk w') !! archivePath Examples.entry100 = None) /\
    ([ {| StatusCode := 416; Body := ""; BodyFails := false |};
       {| StatusCode := 416; Body := ""; BodyFails := false |} ] <> [] ->
     FS.fault (disk Examples.rejected_twice) FS.OpRemove
       (archivePath Examples.entry100) = false ->
     FS.tree (disk Examples.rejected_twice) !! archivePath Examples.entry100
       <> Some Dir ->
     FS.tree (disk w') !! archivePath Examples.entry100 = None).
Proof.
  apply (downloadFile_retries_every_416
           [ {| StatusCode := 416; Body := ""; BodyFails := false |};
             {| StatusCode := 416; Body := ""; BodyFails := false |} ]
           [Examples.ok 200 "archive"] Examples.rejected_twice "http://srv/a"
           (archivePath Examples.entry100)).
  - repeat constructor.
  - reflexivity.
Defined.

(** C3 fails as stated: after a second 416 answer the download does not stop
    with an error; a third request is sent and its answer is stored. *)
Lemma downloadFile_survives_second_416 :
  (downloadFile Examples.rejected_twice "http://srv/a"
     (archivePath Examples.entry100)).1 = None /\
  length (requests (downloadFile Examples.rejected_twice "http://srv/a"
                      (archivePath Examples.entry100)).2) = 3%nat /\
  FS.tree (disk (downloadFile Examples.rejected_twice "http://srv/a"
                   (archivePath Examples.entry100)).2)
    !! archivePath Examples.entry100 = Some (File (Bytes "archive")).
Proof. vm_compute. repeat split; reflexivity. Qed.

Lemma hivesim_downloadFile_fault w url dest e w' :
  HiveSim.downloadFile w url dest = (e, w') ->
  FS.fault (disk w') = FS.fault (disk w).
Proof.
  unfold HiveSim.downloadFile. destruct (url_invalid w url); [by intros [= <- <-]|].
  unfold Do. destruct (script w) as [|[|resp] rest]; simpl;
    try by intros [= <- <-].
  destruct (negb _); [by intros [= <- <-]|].
  destruct (FS.WriteFile (disk w) dest (Bytes "")) as [[e0|] d] eqn:Hw;
    [by intros [= <- <-]|].
  intros H. apply copy_body_spec in H. destruct H as (-> & _). simpl.
  replace d with (FS.WriteFile (disk w) dest (Bytes "")).2 by (by rewrite Hw).
  apply WriteFile_fault.
Qed.








End DownloadClaims.

(** ** Facts about the overlay manager *)

Section OverlayFacts.
Import Overlay Props OverlayProps.

Lemma length_append (a b : string) :
  String.length (a +:+ b) = (String.length a + String.length b)%nat.
Proof. induction a as [|c a IH]; simpl; [done|]. by rewrite IH. Qed.

Lemma length_prefix (n : nat) (s : string) :
  (n <= String.length s)%nat -> String.length (GoString.prefix n s) = n.
Proof.
  revert s. induction n as [|n IH]; intros s Hn; [done|].
  destruct s as [|c s]; simpl in *; [lia|]. rewrite IH; [done|lia].
Qed.

(** An identifier made by [CreateOverlay] is longer than [state.json]. *)
Lemma nextOverlayID_not_state w containerID :
  (12 <= GoString.len containerID)%nat ->
  nextOverlayID w containerID <> "state.json".
Proof.
  intros Hlen Heq. apply (f_equal String.length) in Heq.
  unfold nextOverlayID in Heq. rewrite length_append, length_prefix in Heq by done.
  simpl in Heq. lia.
Qed.

Lemma prefix_of_child (B : path) (id : string) (r q : path) :
  q `prefix_of` B ++ id :: r -> q `prefix_of` B \/ (B ++ [id]) `prefix_of` q.
Proof.
  revert q. induction B as [|b B IH]; intros q Hq; simpl in *.
  - destruct q as [|x q]; [left; done|]. right.
    apply prefix_cons_inv_1 in Hq as ->. by apply prefix_cons, prefix_nil.
  - destruct q as [|x q]; [left; apply prefix_nil|].
    pose proof (prefix_cons_inv_1 _ _ _ _ Hq) as ->.
    apply prefix_cons_inv_2 in Hq.
    destruct (IH q Hq) as [H|H]; [left|right]; by apply prefix_cons.
Qed.

(** Making a directory below [B ++ [id]], where [B] exists, changes nothing
    outside [B ++ [id]]. *)
Lemma MkdirAll_below (d : FS.t) (B : path) (id : string) (r : path) e d' :
  FS.MkdirAll d (B ++ id :: r) = (e, d') ->
  dirs_exist (FS.tree d) B ->
  forall q, ~ FS.under (B ++ [id]) q -> FS.tree d' !! q = FS.tree d !! q.
Proof.
  intros H HB q Hq.
  destruct (MkdirAll_changes _ _ _ _ q H) as [?|(Hnone & _ & Hne & Hpre)]; [done|].
  apply prefix_of_child in Hpre as [Hpre|Hpre]; [|done].
  rewrite (HB q Hne Hpre) in Hnone. done.
Qed.

Lemma dirs_exist_mono (m m' : gmap path node) (B : path) :
  (forall q n, m !! q = Some n -> m' !! q = Some n) ->
  dirs_exist m B -> dirs_exist m' B.
Proof. intros Hmono HB q Hne Hpre. apply Hmono. by apply HB. Qed.

Lemma make_dirs_spec (B : path) (id : string) (dirs : list path) :
  forall d e d',
  make_dirs d dirs = (e, d') ->
  Forall (fun dir => exists r, dir = B ++ id :: r) dirs ->
  FS.fault d' = FS.fault d /\
  (forall q n, FS.tree d !! q = Some n -> FS.tree d' !! q = Some n) /\
  (dirs_exist (FS.tree d) B ->
   forall q, ~ FS.under (B ++ [id]) q -> FS.tree d' !! q = FS.tree d !! q).
Proof.
  induction dirs as [|dir rest IH]; intros d e d' H Hall; simpl in H.
  - by inversion H; subst.
  - inversion Hall as [|? ? [r ->] Hrest]; subst.
    destruct (FS.MkdirAll d (B ++ id :: r)) as [[e1|] d1] eqn:Hmk.
    + injection H as <- <-. split; [by eapply MkdirAll_fault|].
      split; [intros q n; by eapply MkdirAll_mono|].
      intros HB q Hq. by eapply MkdirAll_below.
    + destruct (IH _ _ _ H Hrest) as (Hf & Hmono & Hout).
      split; [rewrite Hf; by eapply MkdirAll_fault|].
      split; [intros q n Hq; eapply Hmono, MkdirAll_mono; eauto|].
      intros HB q Hq. rewrite Hout; [by eapply MkdirAll_below|
        eapply dirs_exist_mono; [|exact HB]; intros; by eapply MkdirAll_mono|done].
Qed.


Lemma mountOverlay_disk m w mount e w' :
  mountOverlay m w mount = (e, w') -> disk w' = disk w.
Proof.
  unfold mountOverlay. destruct (goos (config m)); [|by intros [= <- <-]].
  destruct (mount_errno w (MergedDir mount)) as [e0|].
  - destruct (IsPermission e0); by intros [= <- <-].
  - by intros [= <- <-].
Qed.

Lemma state_not_below m id :
  id <> "state.json" -> ~ FS.under (overlayDirOf m id) (statePath m).
Proof.
  intros Hne. unfold overlayDirOf, statePath, Join.
  by apply (not_under_sibling (BaseDir (config m)) id "state.json" []).
Qed.

(** [persistState] touches the state file only. *)
Lemma persistState_other m w q :
  q <> statePath m ->
  FS.tree (disk (persistState m w).2) !! q = FS.tree (disk w) !! q.
Proof.
  intros Hq. unfold persistState. destruct (bool_decide _); simpl.
  - by apply Remove_other.
  - destruct (FS.WriteFile (disk w) (statePath m) _) as [[e|] d] eqn:Hw; simpl;
      replace d with (FS.WriteFile (disk w) (statePath m) (StateDoc (overlays m))).2
        by (by rewrite Hw); by apply WriteFile_other.
Qed.


End OverlayFacts.

Section CleanupFacts.
Import Overlay Props OverlayProps.

Lemma shrinks_refl w : shrinks w w.
Proof. by repeat split. Qed.

Lemma shrinks_trans w1 w2 w3 : shrinks w1 w2 -> shrinks w2 w3 -> shrinks w1 w3.
Proof.
  intros ((Ha & Hb & Hc & Hd) & Ht & Hm) ((Ha' & Hb' & Hc' & Hd') & Ht' & Hm').
  repeat split; try congruence; eauto.
Qed.

Lemma Unmount_shrinks w target flags e w' :
  Unmount w target flags = (e, w') ->
  shrinks w w' /\ disk w' = disk w /\ (is_Some e -> w' = w).
Proof.
  unfold Unmount. destruct (umount_errno w target flags) as [e0|].
  - intros [= <- <-]. split; [apply shrinks_refl|done].
  - intros [= <- <-]. repeat split; simpl; try done.
    intros p Hp. apply list_elem_of_filter in Hp. tauto.
Qed.

Lemma cleanupDirs_spec m w mount e w' :
  cleanupDirs m w mount = (e, w') ->
  shrinks w w' /\
  (forall q, ~ FS.under (overlayDirOf m (ID mount)) q ->
             FS.tree (disk w') !! q = FS.tree (disk w) !! q) /\
  (e = None -> absent (FS.tree (disk w')) (overlayDirOf m (ID mount))) /\
  (FS.fault (disk w) FS.OpRemoveAll (overlayDirOf m (ID mount)) = false -> e = None).
Proof.
  unfold cleanupDirs.
  destruct (FS.RemoveAll (disk w) _) as [[e0|] d] eqn:Hrm; intros [= <- <-]; simpl;
    (assert (Hd : d = (FS.RemoveAll (disk w) (overlayDirOf m (ID mount))).2)
       by (by rewrite Hrm)).
  - repeat split; try done.
    + rewrite Hd. apply RemoveAll_fault.
    + intros q n. rewrite Hd. apply RemoveAll_lookup.
    + intros q Hq. rewrite Hd. by apply RemoveAll_other.
    + intros Hf. unfold FS.RemoveAll in Hrm. by rewrite Hf in Hrm.
  - repeat split; try done.
    + rewrite Hd. apply RemoveAll_fault.
    + intros q n. rewrite Hd. apply RemoveAll_lookup.
    + intros q Hq. rewrite Hd. by apply RemoveAll_other.
    + intros _. by eapply RemoveAll_ok_gone.
Qed.

Lemma cleanupMount_spec m w mount e w' :
  cleanupMount m w mount = (e, w') ->
  shrinks w w' /\
  (forall q, ~ FS.under (overlayDirOf m (ID mount)) q ->
             FS.tree (disk w') !! q = FS.tree (disk w) !! q) /\
  (e = None -> absent (FS.tree (disk w')) (overlayDirOf m (ID mount))).
Proof.
  unfold cleanupMount. destruct (goos (config m)).
  2: { intros [= <- <-]. split; [apply shrinks_refl|done]. }
  destruct (negb (isMounted m w (MergedDir mount))).
  { intros H. apply cleanupDirs_spec in H. tauto. }
  destruct (Unmount w (MergedDir mount) 0) as [[e1|] w1] eqn:H1;
    apply Unmount_shrinks in H1 as (Hs1 & Hd1 & _).
  2: { intros H. apply cleanupDirs_spec in H as (Hs & Ho & Ha & _).
       split; [by eapply shrinks_trans|]. rewrite <- Hd1. done. }
  destruct (Unmount w1 (MergedDir mount) MNT_DETACH) as [[e2|] w2] eqn:H2;
    apply Unmount_shrinks in H2 as (Hs2 & Hd2 & _).
  2: { intros H. apply cleanupDirs_spec in H as (Hs & Ho & Ha & _).
       split; [eapply shrinks_trans; [|exact Hs]; by eapply shrinks_trans|].
       rewrite <- Hd1, <- Hd2. done. }
  unfold killProcesses. simpl.
  destruct (Unmount w2 (MergedDir mount) _) as [[e3|] w3] eqn:H3;
    apply Unmount_shrinks in H3 as (Hs3 & Hd3 & _).
  - intros [= <- <-]. split.
    + eapply shrinks_trans; [|exact Hs3]. by eapply shrinks_trans.
    + split; [|done]. intros q _. by rewrite Hd3, Hd2, Hd1.
  - intros H. apply cleanupDirs_spec in H as (Hs & Ho & Ha & _).
    split.
    + eapply shrinks_trans; [|exact Hs].
      eapply shrinks_trans; [|exact Hs3]. by eapply shrinks_trans.
    + rewrite <- Hd1, <- Hd2, <- Hd3. done.
Qed.

(** When every step of the ladder fails, so does [cleanupMount], and the
    environment is as before. *)
Lemma cleanupMount_ladder_fails m w mount :
  ladder_fails m w mount ->
  cleanupMount m w mount = (Some (Annot ErrUnmountFailed "umount"), w).
Proof.
  intros (Hm & [e0 H0] & [e1 H1] & [e2 H2]). unfold cleanupMount.
  assert (goos (config m) = Linux) as ->.
  { unfold isMounted in Hm. by destruct (goos (config m)). }
  rewrite Hm. simpl. unfold Unmount, killProcesses. rewrite H0, H1. simpl.
  by rewrite H2.
Qed.

(** A mount that can be cleaned up is cleaned up. *)
Lemma cleanupMount_cleanable m w mount :
  cleanable m w mount -> exists w', cleanupMount m w mount = (None, w').
Proof.
  intros (Hos & Hrm & Hladder). unfold cleanupMount. rewrite Hos.
  assert (Hdirs : forall w0, FS.fault (disk w0) = FS.fault (disk w) ->
                    exists w', cleanupDirs m w0 mount = (None, w')).
  { intros w0 Hf. destruct (cleanupDirs m w0 mount) as [e w'] eqn:Hc.
    apply cleanupDirs_spec in Hc as (_ & _ & _ & Hok).
    rewrite Hok by (by rewrite Hf). by eexists. }
  destruct (isMounted m w (MergedDir mount)) eqn:Hm; simpl; [|by apply Hdirs].
  destruct Hladder as [?|Hladder]; [done|].
  destruct (Unmount w (MergedDir mount) 0) as [[e1|] w1] eqn:H1.
  2: { apply Unmount_shrinks in H1 as (_ & Hd & _). apply Hdirs. by rewrite Hd. }
  pose proof (Unmount_shrinks _ _ _ _ _ H1) as (_ & _ & Hw1).
  rewrite (Hw1 (ltac:(by eexists))) in *. clear Hw1.
  destruct Hladder as [H0|Hladder].
  { unfold Unmount in H1. by rewrite H0 in H1. }
  destruct (Unmount w (MergedDir mount) MNT_DETACH) as [[e2|] w2] eqn:H2.
  2: { apply Unmount_shrinks in H2 as (_ & Hd & _). apply Hdirs. by rewrite Hd. }
  pose proof (Unmount_shrinks _ _ _ _ _ H2) as (_ & _ & Hw2).
  rewrite (Hw2 (ltac:(by eexists))) in *. clear Hw2.
  destruct Hladder as [Hd|Hf].
  { unfold Unmount in H2. by rewrite Hd in H2. }
  unfold killProcesses. simpl. unfold Unmount at 1. rewrite Hf.
  apply Hdirs. done.
Qed.

(** What can be cleaned up stays so while other overlays are cleaned up. *)
Lemma cleanable_shrinks m w w' mount :
  shrinks w w' -> cleanable m w mount -> cleanable m w' mount.
Proof.
  intros ((Hf & Hr & _ & Hu) & _ & Hm) (Hos & Hrm & Hladder).
  split; [done|]. split; [by rewrite Hf|].
  rewrite Hu. destruct Hladder as [Hnot|?]; [|by right]. left.
  unfold isMounted in *. rewrite Hos in *. rewrite Hr.
  destruct (proc_mounts_readable w); [|done]. simpl in *.
  apply bool_decide_eq_false in Hnot. apply bool_decide_eq_false. auto.
Qed.

End CleanupFacts.

(** ** The overlay manager: creation *)

Section CreateOverlayClaims.
Import Overlay Props OverlayProps.

Lemma overlay_dirs_below m id :
  Forall (fun dir => exists r, dir = BaseDir (config m) ++ id :: r) (overlay_dirs m id).
Proof.
  unfold overlay_dirs, overlayDirOf, Join.
  repeat constructor; eexists; by rewrite <- app_assoc.
Qed.

(** How [CreateOverlay] can fail: before anything was made, or after the
    directories were attempted, and then with a removal of the overlay
    directory. *)
Lemma CreateOverlay_Fail_inv m w containerID cfg e m' w' :
  CreateOverlay m w containerID cfg = (Fail e, m', w') ->
  m' = m /\
  ((w' = w /\
    (is_Some (overlays m !! containerID) \/
     (exists e0, FS.Stat (disk w) (SnapshotPath cfg) = inl e0) \/
     (exists c, FS.Stat (disk w) (SnapshotPath cfg) = inr (File c))))
   \/
   (exists e0 d,
      make_dirs (disk w) (overlay_dirs m (nextOverlayID w containerID)) = (e0, d) /\
      disk w' = (FS.RemoveAll d (overlayDirOf m (nextOverlayID w containerID))).2)).
Proof.
  unfold CreateOverlay.
  destruct (overlays m !! containerID) as [mt|] eqn:Hreg.
  { intros [= <- <- <-]. split; [done|]. left. split; [done|]. left. by eexists. }
  destruct (FS.Stat (disk w) (SnapshotPath cfg)) as [e0|info] eqn:Hst.
  { destruct (IsNotExist e0); intros [= <- <- <-]; (split; [done|]); left;
      (split; [done|]); right; left; by eexists. }
  destruct info as [c|]; cbn [IsDir negb].
  { intros [= <- <- <-]. split; [done|]. left. split; [done|]. right. right.
    by eexists. }
  destruct (GoString.len containerID <? 12)%nat; [done|].
  cbn [Now disk with_disk]. fold (nextOverlayID w containerID).
  fold (overlay_dirs m (nextOverlayID w containerID)).
  destruct (make_dirs (disk w) _) as [[e1|] d] eqn:Hmk.
  { intros [= <- <- <-]. split; [done|]. right. by exists (Some e1), d. }
  destruct (mountOverlay m _ _) as [[err|] w3] eqn:Hmnt; [|done].
  intros [= <- <- <-]. split; [done|]. right. exists None, d. split; [done|].
  cbn [disk with_disk]. by rewrite (mountOverlay_disk _ _ _ _ _ Hmnt).
Qed.



(** C10.  With a container identifier shorter than twelve bytes
    [CreateOverlay] panics at [containerID[:12]] once the documented
    preconditions hold: the container is not registered and the snapshot path
    is a directory.  Nothing has been changed by then. *)
Theorem CreateOverlay_short_id_panics m w containerID cfg :
  overlays m !! containerID = None ->
  FS.Stat (disk w) (SnapshotPath cfg) = inr Dir ->
  (GoString.len containerID < 12)%nat ->
  CreateOverlay m w containerID cfg
    = (Panic "slice bounds out of range [:12]", m, w).
Proof.
  intros Hreg Hst Hlen. unfold CreateOverlay. rewrite Hreg, Hst.
  cbn [IsDir negb]. apply Nat.ltb_lt in Hlen. by rewrite Hlen.
Qed.

Lemma CreateOverlay_short_id_panics_witness :
  CreateOverlay OverlayExamples.fresh_manager OverlayExamples.healthy "abc"
    OverlayExamples.snapshot
    = (Panic "slice bounds out of range [:12]", OverlayExamples.fresh_manager,
       OverlayExamples.healthy).
Proof.
  apply CreateOverlay_short_id_panics.
  - reflexivity.
  - vm_compute. reflexivity.
  - vm_compute. lia.
Defined.

End CreateOverlayClaims.

(** ** The overlay manager: clean-up, persistence and recovery *)

Section RegistryFacts.
Import Overlay Props OverlayProps.



(** A successful [CreateOverlay]. *)
Lemma CreateOverlay_Ret_inv m w containerID cfg mount m' w' :
  CreateOverlay m w containerID cfg = (Ret mount, m', w') ->
  overlays m !! containerID = None /\
  (12 <= GoString.len containerID)%nat /\
  ID mount = nextOverlayID w containerID /\
  m' = with_overlays (<[containerID := mount]> (overlays m)) m /\
  exists d w3,
    make_dirs (disk w) (overlay_dirs m (nextOverlayID w containerID)) = (None, d) /\
    disk w3 = d /\ w' = (persistState m' w3).2.
Proof.
  unfold CreateOverlay.
  destruct (overlays m !! containerID) as [mt|] eqn:Hreg; [done|].
  destruct (FS.Stat (disk w) (SnapshotPath cfg)) as [e0|info] eqn:Hst.
  { by destruct (IsNotExist e0). }
  destruct info as [c|]; cbn [IsDir negb]; [done|].
  destruct (GoString.len containerID <? 12)%nat eqn:Hlen; [done|].
  apply Nat.ltb_ge in Hlen.
  cbn [Now disk with_disk]. fold (nextOverlayID w containerID).
  fold (overlay_dirs m (nextOverlayID w containerID)).
  destruct (make_dirs (disk w) _) as [[e1|] d] eqn:Hmk; [done|].
  destruct (mountOverlay m _ _) as [[err|] w3] eqn:Hmnt; [done|].
  intros [= <- <- <-]. repeat split; try done.
  exists d, w3. repeat split; try done.
  by rewrite (mountOverlay_disk _ _ _ _ _ Hmnt).
Qed.

(** No overlay made by [CreateOverlay] is named like the state file. *)
Lemma CreateOverlay_registry_ok m w containerID cfg mount m' w' :
  CreateOverlay m w containerID cfg = (Ret mount, m', w') ->
  ID mount <> "state.json" /\ (registry_ok m -> registry_ok m').
Proof.
  intros H. apply CreateOverlay_Ret_inv in H as (_ & Hlen & Hid & -> & _).
  assert (Hne : ID mount <> "state.json").
  { rewrite Hid. by apply nextOverlayID_not_state. }
  split; [done|]. unfold registry_ok. simpl. intros Hok.
  by apply map_Forall_insert_2.
Qed.



Lemma absent_shrinks w w' p :
  shrinks w w' -> absent (FS.tree (disk w)) p -> absent (FS.tree (disk w')) p.
Proof.
  intros (_ & Hsub & _) Habs q Hq.
  destruct (FS.tree (disk w') !! q) as [n|] eqn:E; [|done].
  apply Hsub in E. by rewrite (Habs q Hq) in E.
Qed.

(** A clean-up loop only removes, and removes every overlay that can be
    cleaned up. *)
Lemma cleanup_fold_spec m (l : list (string * Mount)) : forall acc,
  shrinks acc.2 (foldl (cleanup_step m) acc l).2 /\
  (forall entry, entry ∈ l -> cleanable m acc.2 entry.2 ->
     absent (FS.tree (disk (foldl (cleanup_step m) acc l).2))
       (overlayDirOf m (ID entry.2))).
Proof.
  induction l as [|x l IH]; intros acc; simpl.
  - split; [apply shrinks_refl|]. intros entry Hin. by apply elem_of_nil in Hin.
  - destruct (IH (cleanup_step m acc x)) as (Hs & Hall).
    assert (Hstep : shrinks acc.2 (cleanup_step m acc x).2 /\
              (cleanable m acc.2 x.2 ->
               absent (FS.tree (disk (cleanup_step m acc x).2))
                 (overlayDirOf m (ID x.2)))).
    { unfold cleanup_step.
      destruct (cleanupMount m acc.2 x.2) as [[err|] w1] eqn:Hc; simpl.
      - pose proof (cleanupMount_spec _ _ _ _ _ Hc) as (Hs1 & _). split; [done|].
        intros Hcl. apply cleanupMount_cleanable in Hcl as [w2 Hw2]. congruence.
      - apply cleanupMount_spec in Hc as (Hs1 & _ & Hgone). split; [done|].
        intros _. by apply Hgone. }
    destruct Hstep as (Hs1 & Hx).
    split; [by eapply shrinks_trans|].
    intros entry Hin Hcl. apply elem_of_cons in Hin as [->|Hin].
    + eapply absent_shrinks; [exact Hs|]. by apply Hx.
    + apply Hall; [done|]. by eapply cleanable_shrinks.
Qed.

Lemma cleanup_each_spec m w reg e w' :
  cleanup_each m w reg = (e, w') ->
  shrinks w w' /\
  (forall c mount, reg !! c = Some mount -> cleanable m w mount ->
     absent (FS.tree (disk w')) (overlayDirOf m (ID mount))).
Proof.
  unfold cleanup_each. intros H.
  destruct (cleanup_fold_spec m (map_to_list reg) (None, w)) as (Hs & Hall).
  rewrite H in Hs, Hall. simpl in *. split; [done|].
  intros c mount Hc Hcl. apply (Hall (c, mount)); [|done].
  by apply elem_of_map_to_list.
Qed.

End RegistryFacts.

Section CleanupClaims.
Import Overlay Props OverlayProps.

Lemma CleanupOverlay_inv m w c mount r m' w' :
  overlays m !! c = Some mount ->
  CleanupOverlay m w c = (r, m', w') ->
  (exists err, r = Some err /\ m' = m /\ cleanupMount m w mount = (Some err, w'))
  \/
  (exists w1, r = None /\ cleanupMount m w mount = (None, w1) /\
              m' = with_overlays (delete c (overlays m)) m /\
              w' = (persistState m' w1).2).
Proof.
  intros Hreg. unfold CleanupOverlay. rewrite Hreg.
  destruct (cleanupMount m w mount) as [[err|] w1] eqn:Hc; intros [= <- <- <-].
  - left. by exists err.
  - right. by exists w1.
Qed.

(** C6.  For a registered container whose unmount ladder fails at every
    step, [CleanupOverlay] returns [ErrUnmountFailed] and leaves the registry
    and the environment as they were, so that the call can be made again.
    In general an error leaves the registry unchanged, and the entry is gone
    from the registry only when [cleanupMount] has returned without error,
    which means the overlay directory has been removed. *)
Theorem CleanupOverlay_unmount_failure m w c mount :
  overlays m !! c = Some mount ->
  (ladder_fails m w mount ->
   exists err, CleanupOverlay m w c = (Some err, m, w) /\
               errors_Is err ErrUnmountFailed = true) /\
  (forall r m' w', CleanupOverlay m w c = (r, m', w') ->
     (is_Some r -> m' = m) /\
     (overlays m' !! c = None ->
      r = None /\
      exists w1, cleanupMount m w mount = (None, w1) /\
                 absent (FS.tree (disk w1)) (overlayDirOf m (ID mount)))).
Proof.
  intros Hreg. split.
  - intros Hl. unfold CleanupOverlay. rewrite Hreg.
    rewrite (cleanupMount_ladder_fails _ _ _ Hl). by eexists.
  - intros r m' w' H.
    destruct (CleanupOverlay_inv _ _ _ _ _ _ _ Hreg H)
      as [(err & -> & -> & Hc)|(w1 & -> & Hc & -> & ->)].
    + split; [done|]. intros Hnone. congruence.
    + split; [by intros [? ?]|]. intros _. split; [done|]. exists w1.
      split; [done|]. by apply cleanupMount_spec in Hc as (_ & _ & Hgone); auto.
Qed.

Lemma CleanupOverlay_unmount_failure_witness :
  exists err,
    CleanupOverlay OverlayExamples.manager1 OverlayExamples.busy
      OverlayExamples.containerID
      = (Some err, OverlayExamples.manager1, OverlayExamples.busy) /\
    errors_Is err ErrUnmountFailed = true.
Proof.
  assert (Hreg : overlays OverlayExamples.manager1 !! OverlayExamples.containerID
                 = Some OverlayExamples.mount1)
    by (vm_compute; reflexivity).
  apply (proj1 (CleanupOverlay_unmount_failure _ _ _ _ Hreg)).
  unfold ladder_fails. split; [vm_compute; reflexivity|].
  split; [|split]; by exists EBUSY.
Defined.

(** C7.  [CleanupOverlay] of a container that is not registered returns
    success and changes nothing.  After any successful [CleanupOverlay] the
    container is not registered, a second call returns success and changes
    nothing, and the directory of the overlay that was registered no longer
    exists. *)
Theorem CleanupOverlay_idempotent m w c :
  (overlays m !! c = None -> CleanupOverlay m w c = (None, m, w)) /\
  (forall m' w', CleanupOverlay m w c = (None, m', w') ->
     GetOverlay m' c = None /\
     CleanupOverlay m' w' c = (None, m', w') /\
     (forall mount, overlays m !! c = Some mount -> ID mount <> "state.json" ->
        absent (FS.tree (disk w')) (overlayDirOf m (ID mount)))).
Proof.
  split.
  - intros Hreg. unfold CleanupOverlay. by rewrite Hreg.
  - intros m' w' H.
    assert (Hget : GetOverlay m' c = None).
    { unfold GetOverlay. destruct (overlays m !! c) as [mount|] eqn:Hreg.
      - destruct (CleanupOverlay_inv _ _ _ _ _ _ _ Hreg H)
          as [(err & ? & _)|(w1 & _ & _ & -> & _)]; [done|].
        simpl. apply lookup_delete_eq.
      - unfold CleanupOverlay in H. rewrite Hreg in H. by injection H as <- <-. }
    split; [done|]. split.
    + unfold CleanupOverlay. unfold GetOverlay in Hget. by rewrite Hget.
    + intros mount Hreg Hid.
      destruct (CleanupOverlay_inv _ _ _ _ _ _ _ Hreg H)
        as [(err & ? & _)|(w1 & _ & Hc & -> & ->)]; [done|].
      apply cleanupMount_spec in Hc as (_ & _ & Hgone).
      intros q Hq. rewrite persistState_other; [by apply Hgone|].
      intros ->. by apply (state_not_below m (ID mount)).
Qed.

Lemma CleanupOverlay_idempotent_witness :
  GetOverlay (CleanupOverlay OverlayExamples.manager1 OverlayExamples.world1
                OverlayExamples.containerID).1.2 OverlayExamples.containerID
    = None /\
  CleanupOverlay
    (CleanupOverlay OverlayExamples.manager1 OverlayExamples.world1
       OverlayExamples.containerID).1.2
    (CleanupOverlay OverlayExamples.manager1 OverlayExamples.world1
       OverlayExamples.containerID).2
    OverlayExamples.containerID
    = (None,
       (CleanupOverlay OverlayExamples.manager1 OverlayExamples.world1
          OverlayExamples.containerID).1.2,
       (CleanupOverlay OverlayExamples.manager1 OverlayExamples.world1
          OverlayExamples.containerID).2) /\
  FS.tree (disk (CleanupOverlay OverlayExamples.manager1 OverlayExamples.world1
                   OverlayExamples.containerID).2)
    !! ["overlays"; "abcdef123456_1700"; "merged"] = None.
Proof.
  assert (Hrun : CleanupOverlay OverlayExamples.manager1 OverlayExamples.world1
                   OverlayExamples.containerID
                 = (None,
                    (CleanupOverlay OverlayExamples.manager1 OverlayExamples.world1
                       OverlayExamples.containerID).1.2,
                    (CleanupOverlay OverlayExamples.manager1 OverlayExamples.world1
                       OverlayExamples.containerID).2))
    by (vm_compute; reflexivity).
  pose proof (proj2 (CleanupOverlay_idempotent OverlayExamples.manager1
                       OverlayExamples.world1 OverlayExamples.containerID)
                _ _ Hrun) as (Hget & Hagain & Hgone).
  split; [exact Hget|]. split; [exact Hagain|].
  apply (Hgone OverlayExamples.mount1).
  - vm_compute. reflexivity.
  - discriminate.
  - exists ["merged"]. reflexivity.
Defined.

End CleanupClaims.

Section PersistenceClaims.
Import Overlay Props OverlayProps.

Lemma statePath_with_overlays reg m : statePath (with_overlays reg m) = statePath m.
Proof. reflexivity. Qed.











End PersistenceClaims.

(** * Further properties of the code *)

(** ** Client names *)

Section ClientNames.
Import Snapshot ExtraProps.

Lemma IndexByte_append_first (c : ascii) (base tag : string) :
  GoString.IndexByte c base = None ->
  GoString.IndexByte c (base +:+ String c tag) = Some (String.length base).
Proof.
  induction base as [|d base IH]; simpl.
  - intros _. by rewrite Ascii.eqb_refl.
  - destruct (Ascii.eqb c d); [done|].
    destruct (GoString.IndexByte c base); [done|]. intros _. by rewrite IH.
Qed.

Lemma prefix_append (base rest : string) :
  GoString.prefix (String.length base) (base +:+ rest) = base.
Proof.
  induction base as [|d base IH]; simpl; [by destruct rest|]. by rewrite IH.
Qed.

Lemma IndexByte_prefix (c : ascii) (s : string) : forall n,
  GoString.IndexByte c s = Some n -> GoString.IndexByte c (GoString.prefix n s) = None.
Proof.
  induction s as [|d s IH]; intros n; simpl; [done|].
  destruct (Ascii.eqb c d) eqn:E.
  - by intros [= <-].
  - destruct (GoString.IndexByte c s) as [i|] eqn:Hi; [|done].
    intros [= <-]. simpl. by rewrite E, (IH i).
Qed.

Lemma baseNameOf_fixed (s : string) : baseNameOf (baseNameOf s) = baseNameOf s.
Proof.
  unfold baseNameOf at 2 3.
  destruct (GoString.IndexByte "_"%char s) as [[|idx]|] eqn:E.
  - unfold baseNameOf. by rewrite E.
  - unfold baseNameOf. by rewrite (IndexByte_prefix _ _ _ E).
  - unfold baseNameOf. by rewrite E.
Qed.

Lemma lower_ascii_fixed (c : ascii) :
  GoString.lower_ascii (GoString.lower_ascii c) = GoString.lower_ascii c.
Proof. destruct c as [[] [] [] [] [] [] [] []]; reflexivity. Qed.

Lemma lower_ascii_underscore (c : ascii) :
  Ascii.eqb "_"%char (GoString.lower_ascii c) = Ascii.eqb "_"%char c.
Proof. destruct c as [[] [] [] [] [] [] [] []]; reflexivity. Qed.

Lemma ToLower_fixed (s : string) :
  GoString.ToLower (GoString.ToLower s) = GoString.ToLower s.
Proof.
  induction s as [|c s IH]; [done|]. cbn [GoString.ToLower].
  by rewrite lower_ascii_fixed, IH.
Qed.

Lemma IndexByte_ToLower (s : string) :
  GoString.IndexByte "_"%char (GoString.ToLower s) = GoString.IndexByte "_"%char s.
Proof.
  induction s as [|c s IH]; [done|]. cbn [GoString.IndexByte GoString.ToLower].
  by rewrite lower_ascii_underscore, IH.
Qed.

Lemma prefix_ToLower (n : nat) : forall s,
  GoString.prefix n (GoString.ToLower s) = GoString.ToLower (GoString.prefix n s).
Proof.
  induction n as [|n IH]; intros s; [by destruct s|].
  destruct s as [|c s]; [done|]. cbn [GoString.prefix GoString.ToLower].
  by rewrite IH.
Qed.

Lemma baseNameOf_ToLower (s : string) :
  baseNameOf (GoString.ToLower s) = GoString.ToLower (baseNameOf s).
Proof.
  unfold baseNameOf. rewrite IndexByte_ToLower.
  destruct (GoString.IndexByte "_"%char s) as [[|idx]|]; try done.
  apply prefix_ToLower.
Qed.

Lemma mapClientName_unfold (s : string) :
  mapClientName s =
    match mapping !! GoString.ToLower (baseNameOf s) with
    | Some mapped => mapped
    | None => baseNameOf s
    end.
Proof. reflexivity. Qed.

(** The names the table maps to. *)
Lemma mapping_values (k v : string) :
  mapping !! k = Some v ->
  v ∈ ["geth"; "nethermind"; "besu"; "reth"; "erigon"].
Proof.
  unfold mapping. simpl. intros H.
  repeat (apply lookup_insert_Some in H as [[_ <-]|[_ H]];
            [repeat ((by left) || right)|]).
  done.
Qed.

End ClientNames.

Section ClientNameProperties.
Import Snapshot ExtraProps.

(** X1.  A name tag is dropped before the table is consulted: a client name
    and the same name followed by an underscore and any tag are mapped to the
    same snapshot client, provided the name itself is not empty and holds no
    underscore. *)
Theorem mapClientName_strips_nametag (base tag : string) :
  base <> "" ->
  GoString.IndexByte "_"%char base = None ->
  mapClientName (base +:+ "_" +:+ tag) = mapClientName base.
Proof.
  intros Hne Hnone. rewrite !mapClientName_unfold.
  assert (Hbase : baseNameOf (base +:+ "_" +:+ tag) = base).
  { unfold baseNameOf. change ("_" +:+ tag) with (String "_"%char tag).
    rewrite (IndexByte_append_first _ _ _ Hnone).
    destruct base as [|c base]; [done|]. cbn [String.length].
    apply (prefix_append (String c base)). }
  rewrite Hbase. unfold baseNameOf. by rewrite Hnone.
Qed.

Lemma mapClientName_strips_nametag_witness :
  mapClientName ("nethermind" +:+ "_" +:+ "default") = mapClientName "nethermind".
Proof.
  apply mapClientName_strips_nametag.
  - discriminate.
  - reflexivity.
Defined.

(** X2.  The client part of the cache key is a fixed point of the
    normalisation [EnsureSnapshot] applies: normalising a normalised client
    name gives the same name. *)
Theorem client_normalisation_fixed (s : string) :
  GoString.ToLower (mapClientName (GoString.ToLower (mapClientName s)))
    = GoString.ToLower (mapClientName s).
Proof.
  rewrite (mapClientName_unfold s).
  destruct (mapping !! GoString.ToLower (baseNameOf s)) as [mapped|] eqn:Hs.
  - apply mapping_values in Hs.
    repeat (apply elem_of_cons in Hs as [->|Hs]; [vm_compute; reflexivity|]).
    by apply elem_of_nil in Hs.
  - rewrite mapClientName_unfold.
    rewrite baseNameOf_ToLower, baseNameOf_fixed, ToLower_fixed, Hs.
    apply ToLower_fixed.
Qed.

End ClientNameProperties.

(** ** More about the fetcher *)

Section FetcherFacts.
Import Snapshot Props SnapshotExtra.

Lemma length_prefix_le (n : nat) : forall s,
  (String.length (GoString.prefix n s) <= n)%nat.
Proof.
  induction n as [|n IH]; intros s; [by destruct s|].
  destruct s as [|c s]; simpl; [lia|]. specialize (IH s). lia.
Qed.

Lemma length_trim_left (s : string) :
  (String.length (GoString.trim_left s) <= String.length s)%nat.
Proof.
  induction s as [|c s IH]; simpl; [done|].
  destruct (GoString.is_space c); simpl; lia.
Qed.

Lemma length_trim_right (s : string) :
  (String.length (GoString.trim_right s) <= String.length s)%nat.
Proof.
  induction s as [|c s IH]; simpl; [done|].
  destruct (GoString.trim_right s) as [|d t]; simpl in *.
  - destruct (GoString.is_space c); simpl; lia.
  - lia.
Qed.

Lemma length_TrimSpace (s : string) :
  (String.length (GoString.TrimSpace s) <= String.length s)%nat.
Proof.
  unfold GoString.TrimSpace.
  pose proof (length_trim_right (GoString.trim_left s)).
  pose proof (length_trim_left s). lia.
Qed.

Lemma read_limited_length (n : nat) (r : Response) (body : string) :
  read_limited n r = Some body -> (String.length body <= n)%nat.
Proof.
  unfold read_limited. destruct (n <=? String.length (Body r))%nat eqn:E.
  - intros [= <-]. apply length_prefix_le.
  - apply Nat.leb_gt in E. destruct (BodyFails r); [done|]. intros [= <-]. lia.
Qed.

(** The requests of a download are appended to the log, all for the same
    URL. *)
Lemma downloadFile_from_requests sc : forall w url dest e w',
  downloadFile_from sc w url dest = (e, w') ->
  exists new, requests w' = requests w ++ new /\
              Forall (fun req => URL req = url) new /\
              (url_invalid w url = false -> new <> []).
Proof.
  induction sc as [|r rest IH]; intros w url dest e w' H; simpl in H.
  - destruct (url_invalid w url).
    + injection H as <- <-. exists []. by rewrite app_nil_r.
    + injection H as <- <-. simpl. eexists [_]. repeat split; [by repeat constructor|done].
  - destruct (url_invalid w url) eqn:Hurl.
    { injection H as <- <-. exists []. by rewrite app_nil_r. }
    destruct r as [|resp].
    { injection H as <- <-. simpl. eexists [_]. repeat split; [by repeat constructor|done]. }
    destruct (StatusCode resp =? StatusOK).
    { simpl in H. destruct (FS.WriteFile _ _ _) as [[e0|] d].
      - injection H as <- <-. simpl. eexists [_].
        repeat split; [by repeat constructor|done].
      - unfold copy_body in H. injection H as <- <-. simpl. eexists [_].
        repeat split; [by repeat constructor|done]. }
    destruct (StatusCode resp =? StatusPartialContent).
    { simpl in H. destruct (FS.OpenAppend _ _) as [e0|c].
      - injection H as <- <-. simpl. eexists [_].
        repeat split; [by repeat constructor|done].
      - unfold copy_body in H. injection H as <- <-. simpl. eexists [_].
        repeat split; [by repeat constructor|done]. }
    destruct (StatusCode resp =? StatusRequestedRangeNotSatisfiable).
    { apply IH in H as (new & Hreq & Hall & _). simpl in Hreq.
      eexists (_ :: new). rewrite Hreq, <- app_assoc. split; [done|].
      split; [by constructor|done]. }
    injection H as <- <-. simpl. eexists [_].
    repeat split; [by repeat constructor|done].
Qed.

End FetcherFacts.

Section FetcherProperties.
Import Snapshot Props SnapshotExtra.

(** X3.  A block number that [resolveLatestBlock] returns is not empty and
    has at most 64 bytes.  It comes from a 200 answer, costs exactly one
    request, and the disk is not touched. *)
Theorem resolveLatestBlock_result w base network client block w' :
  resolveLatestBlock w base network client = (Ret block, w') ->
  block <> "" /\
  (String.length block <= 64)%nat /\
  disk w' = disk w /\
  length (requests w') = S (length (requests w)) /\
  exists resp, head (script w) = Some (Answer resp) /\ StatusCode resp = StatusOK.
Proof.
  intros H.
  pose proof (resolveLatestBlock_disk _ _ _ _ _ _ H) as Hdisk.
  pose proof (resolveLatestBlock_requests _ _ _ _ _ _ H) as Hreq.
  revert H. unfold resolveLatestBlock. destruct (url_invalid w _); [done|].
  unfold Do. destruct (script w) as [|[|resp] rest]; simpl; try done.
  destruct (StatusCode resp =? StatusOK) eqn:Hst; simpl; [|done].
  destruct (read_limited 64 resp) as [body|] eqn:Hbody; [|done].
  destruct (bool_decide (GoString.TrimSpace body = "")) eqn:Hempty; [done|].
  intros [= <- _]. apply bool_decide_eq_false in Hempty.
  split; [done|]. split.
  - pose proof (length_TrimSpace body). pose proof (read_limited_length _ _ _ Hbody).
    lia.
  - split; [done|]. split; [rewrite Hreq, length_app; simpl; lia|].
    exists resp. split; [done|]. by apply Z.eqb_eq.
Qed.

Lemma resolveLatestBlock_result_witness :
  "200" <> "" /\
  (String.length "200" <= 64)%nat /\
  disk (resolveLatestBlock Examples.cached200 "http://srv" "mainnet" "geth").2
    = disk Examples.cached200 /\
  length (requests (resolveLatestBlock Examples.cached200 "http://srv" "mainnet"
                      "geth").2) = S (length (requests Examples.cached200)) /\
  exists resp, head (script Examples.cached200) = Some (Answer resp) /\
               StatusCode resp = StatusOK.
Proof.
  apply (resolveLatestBlock_result Examples.cached200 "http://srv" "mainnet" "geth").
  vm_compute. reflexivity.
Defined.

(** X4.  [GetCachedSnapshotPath] and [EnsureSnapshot] agree on a concrete
    block: when the first reports a cached snapshot, the second returns the
    same path for the same network, client and block from the fetcher's own
    cache, without a request and without a change. *)
Theorem GetCachedSnapshotPath_agrees f w network client block base :
  block <> "" -> block <> "latest" ->
  GetCachedSnapshotPath f w network client block <> [] ->
  EnsureSnapshot f w {| Network := network; Client := client; BlockNumber := block;
                        BaseURL := base; CacheDir := [] |}
    = (Ret (GetCachedSnapshotPath f w network client block), w).
Proof.
  intros Hne Hlatest. unfold GetCachedSnapshotPath, EnsureSnapshot. simpl.
  rewrite !bool_decide_eq_false_2 by done. simpl.
  unfold markerPath, dataDir, entryDir, Join. rewrite <- !app_assoc. simpl.
  destruct (FS.Stat (disk w) _) as [e|n]; [done|]. done.
Qed.

Lemma GetCachedSnapshotPath_agrees_witness :
  EnsureSnapshot Examples.fetcher Examples.cached200
    {| Network := "Mainnet"; Client := "go-ethereum_default"; BlockNumber := "200";
       BaseURL := ""; CacheDir := [] |}
  = (Ret (GetCachedSnapshotPath Examples.fetcher Examples.cached200 "Mainnet"
            "go-ethereum_default" "200"), Examples.cached200).
Proof.
  apply GetCachedSnapshotPath_agrees.
  - discriminate.
  - discriminate.
  - vm_compute. discriminate.
Defined.

(** X5.  Resume.  With a non-empty partial file on disk the request asks for
    the bytes from the size of that file on, and a 206 answer is appended to
    what was there.  When the body breaks off the bytes received so far stay
    in the file and the call fails. *)
Theorem downloadFile_resumes w url dest old resp rest :
  url_invalid w url = false ->
  FS.fault (disk w) FS.OpStat dest = false ->
  FS.fault (disk w) FS.OpOpen dest = false ->
  FS.tree (disk w) !! dest = Some (File (Bytes old)) ->
  old <> "" ->
  script w = Answer resp :: rest ->
  StatusCode resp = StatusPartialContent ->
  (downloadFile w url dest).1 = (if BodyFails resp then Some NetError else None) /\
  FS.tree (disk (downloadFile w url dest).2) !! dest
    = Some (File (Bytes (old +:+ Body resp))) /\
  requests (downloadFile w url dest).2
    = requests w ++ [{| URL := url; Range := Some (Z.of_nat (String.length old)) |}] /\
  script (downloadFile w url dest).2 = rest /\
  (forall q, q <> dest ->
     FS.tree (disk (downloadFile w url dest).2) !! q = FS.tree (disk w) !! q).
Proof.
  intros Hurl Hst Hop Hfile Hne Hsc Hcode.
  unfold downloadFile. rewrite Hsc. cbn [downloadFile_from].
  unfold FS.Stat, FS.OpenAppend. cbn [send disk]. rewrite Hurl, Hst, Hop, Hfile, Hcode.
  cbn [Size]. assert ((0 <? Z.of_nat (String.length old)) = true) as ->.
  { apply Z.ltb_lt. destruct old; [done|]. simpl. lia. }
  change (StatusPartialContent =? StatusOK) with false.
  change (StatusPartialContent =? StatusPartialContent) with true.
  cbn iota. unfold copy_body. cbn [fst snd disk with_disk send FS.tree FS.with_tree
    requests script append_bytes].
  repeat split.
  - apply lookup_insert_eq.
  - intros q Hq. by rewrite lookup_insert_ne.
Qed.

Lemma downloadFile_resumes_witness :
  (downloadFile Examples.bad_archive "http://srv/a" (archivePath Examples.entry100)).1
    = None /\
  FS.tree (disk (downloadFile Examples.bad_archive "http://srv/a"
                   (archivePath Examples.entry100)).2)
    !! archivePath Examples.entry100 = Some (File (Bytes ("xy" +:+ "z"))) /\
  requests (downloadFile Examples.bad_archive "http://srv/a"
              (archivePath Examples.entry100)).2
    = requests Examples.bad_archive
        ++ [{| URL := "http://srv/a"; Range := Some (Z.of_nat (String.length "xy")) |}] /\
  script (downloadFile Examples.bad_archive "http://srv/a"
            (archivePath Examples.entry100)).2 = [] /\
  (forall q, q <> archivePath Examples.entry100 ->
     FS.tree (disk (downloadFile Examples.bad_archive "http://srv/a"
                      (archivePath Examples.entry100)).2) !! q
       = FS.tree (disk Examples.bad_archive) !! q).
Proof.
  apply (downloadFile_resumes Examples.bad_archive "http://srv/a"
           (archivePath Examples.entry100) "xy"
           {| StatusCode := 206; Body := "z"; BodyFails := false |} []).
  - reflexivity.
  - reflexivity.
  - reflexivity.
  - vm_compute. reflexivity.
  - discriminate.
  - reflexivity.
  - reflexivity.
Defined.

(** X6.  A 200 answer replaces whatever the destination held: after the call
    the file holds exactly the body that was received, and the call fails only
    when the body breaks off.  The destination may be missing or a regular
    file, in a directory that exists. *)
Theorem downloadFile_full_answer w url dir name resp rest :
  url_invalid w url = false ->
  FS.fault (disk w) FS.OpWrite (dir ++ [name]) = false ->
  FS.tree (disk w) !! (dir ++ [name]) <> Some Dir ->
  (dir = [] \/ FS.tree (disk w) !! dir = Some Dir) ->
  script w = Answer resp :: rest ->
  StatusCode resp = StatusOK ->
  (downloadFile w url (dir ++ [name])).1
    = (if BodyFails resp then Some NetError else None) /\
  FS.tree (disk (downloadFile w url (dir ++ [name])).2) !! (dir ++ [name])
    = Some (File (Bytes (Body resp))) /\
  script (downloadFile w url (dir ++ [name])).2 = rest /\
  (forall q, q <> dir ++ [name] ->
     FS.tree (disk (downloadFile w url (dir ++ [name])).2) !! q
       = FS.tree (disk w) !! q).
Proof.
  intros Hurl Hwr Hnd Hdir Hsc Hcode.
  unfold downloadFile. rewrite Hsc. cbn [downloadFile_from].
  rewrite Hurl, Hcode. change (StatusOK =? StatusOK) with true. cbn iota.
  cbn [send disk]. rewrite (WriteFile_written _ _ _ _ Hwr Hnd Hdir).
  unfold copy_body. cbn [fst snd disk with_disk send FS.tree FS.with_tree
    requests script append_bytes].
  repeat split.
  - apply lookup_insert_eq.
  - intros q Hq. by rewrite !lookup_insert_ne.
Qed.

Lemma downloadFile_full_answer_witness :
  (downloadFile (Examples.world Examples.partial Examples.no_fault
                   [Examples.ok 200 "archive"])
     "http://srv/a" (Examples.entry100 ++ [SnapshotFileName])).1 = None /\
  FS.tree (disk (downloadFile (Examples.world Examples.partial Examples.no_fault
                                 [Examples.ok 200 "archive"])
                   "http://srv/a" (Examples.entry100 ++ [SnapshotFileName])).2)
    !! (Examples.entry100 ++ [SnapshotFileName]) = Some (File (Bytes "archive")) /\
  script (downloadFile (Examples.world Examples.partial Examples.no_fault
                          [Examples.ok 200 "archive"])
            "http://srv/a" (Examples.entry100 ++ [SnapshotFileName])).2 = [] /\
  (forall q, q <> Examples.entry100 ++ [SnapshotFileName] ->
     FS.tree (disk (downloadFile (Examples.world Examples.partial Examples.no_fault
                                    [Examples.ok 200 "archive"])
                      "http://srv/a" (Examples.entry100 ++ [SnapshotFileName])).2) !! q
       = FS.tree (disk (Examples.world Examples.partial Examples.no_fault
                          [Examples.ok 200 "archive"])) !! q).
Proof.
  apply (downloadFile_full_answer
           (Examples.world Examples.partial Examples.no_fault [Examples.ok 200 "archive"])
           "http://srv/a" Examples.entry100 SnapshotFileName
           {| StatusCode := 200; Body := "archive"; BodyFails := false |} []).
  - reflexivity.
  - reflexivity.
  - vm_compute. discriminate.
  - right. vm_compute. reflexivity.
  - reflexivity.
  - reflexivity.
Defined.

(** X7.  A transport error, and an answer whose status is none of 200, 206
    and 416, make the download fail after one request and leave the disk as
    it was. *)
Theorem downloadFile_rejects w url dest :
  url_invalid w url = false ->
  match script w with
  | Answer resp :: _ =>
      StatusCode resp <> StatusOK /\ StatusCode resp <> StatusPartialContent /\
      StatusCode resp <> StatusRequestedRangeNotSatisfiable
  | _ => True
  end ->
  is_Some (downloadFile w url dest).1 /\
  disk (downloadFile w url dest).2 = disk w /\
  length (requests (downloadFile w url dest).2) = S (length (requests w)).
Proof.
  intros Hurl Hsc. unfold downloadFile.
  destruct (script w) as [|[|resp] rest]; cbn [downloadFile_from]; rewrite Hurl.
  - cbn. rewrite length_app. simpl. split; [by eexists|]. split; [done|lia].
  - cbn. rewrite length_app. simpl. split; [by eexists|]. split; [done|lia].
  - destruct Hsc as (H200 & H206 & H416).
    apply Z.eqb_neq in H200, H206, H416. rewrite H200, H206, H416.
    cbn. rewrite length_app. simpl. split; [by eexists|]. split; [done|lia].
Qed.

Lemma downloadFile_rejects_witness :
  is_Some (downloadFile Examples.broken "http://srv/a" (archivePath Examples.entry100)).1 /\
  disk (downloadFile Examples.broken "http://srv/a" (archivePath Examples.entry100)).2
    = disk Examples.broken /\
  length (requests (downloadFile Examples.broken "http://srv/a"
                      (archivePath Examples.entry100)).2)
    = S (length (requests Examples.broken)).
Proof.
  apply (downloadFile_rejects Examples.broken "http://srv/a"
           (archivePath Examples.entry100)).
  - reflexivity.
  - exact I.
Defined.

Lemma nothing_to_resume_size (d : FS.t) (dest : path) :
  FS.tree d !! dest = None \/ FS.tree d !! dest = Some (File (Bytes "")) ->
  match FS.Stat d dest with
  | inr stat => Size stat
  | inl _ => 0
  end = 0.
Proof.
  unfold FS.Stat. destruct (FS.fault d FS.OpStat dest); [done|].
  intros [->| ->]; done.
Qed.

Lemma nothing_to_resume_Remove (d : FS.t) (dest : path) :
  FS.tree d !! dest = None \/ FS.tree d !! dest = Some (File (Bytes "")) ->
  FS.tree (FS.Remove d dest).2 !! dest = None \/
  FS.tree (FS.Remove d dest).2 !! dest = Some (File (Bytes "")).
Proof.
  intros H. unfold FS.Remove. destruct (FS.fault d FS.OpRemove dest); [done|].
  destruct H as [H|H]; rewrite H; simpl; [by left|]. left. apply lookup_delete_eq.
Qed.

Lemma downloadFile_from_no_range sc : forall w url dest e w',
  FS.tree (disk w) !! dest = None \/
  FS.tree (disk w) !! dest = Some (File (Bytes "")) ->
  downloadFile_from sc w url dest = (e, w') ->
  exists new, requests w' = requests w ++ new /\
              Forall (fun req => Range req = None) new.
Proof.
  induction sc as [|r rest IH]; intros w url dest e w' Hz H; simpl in H;
    rewrite (nothing_to_resume_size _ _ Hz) in H; simpl in H.
  - destruct (url_invalid w url); injection H as <- <-.
    + exists []. by rewrite app_nil_r.
    + simpl. eexists [_]. split; [done|]. by repeat constructor.
  - destruct (url_invalid w url).
    { injection H as <- <-. exists []. by rewrite app_nil_r. }
    destruct r as [|resp].
    { injection H as <- <-. simpl. eexists [_]. split; [done|]. by repeat constructor. }
    destruct (StatusCode resp =? StatusOK).
    { destruct (FS.WriteFile _ _ _) as [[e0|] d].
      - injection H as <- <-. simpl. eexists [_]. split; [done|]. by repeat constructor.
      - unfold copy_body in H. injection H as <- <-. simpl. eexists [_].
        split; [done|]. by repeat constructor. }
    destruct (StatusCode resp =? StatusPartialContent).
    { destruct (FS.OpenAppend _ _) as [e0|c].
      - injection H as <- <-. simpl. eexists [_]. split; [done|]. by repeat constructor.
      - unfold copy_body in H. injection H as <- <-. simpl. eexists [_].
        split; [done|]. by repeat constructor. }
    destruct (StatusCode resp =? StatusRequestedRangeNotSatisfiable).
    { apply IH in H as (new & Hreq & Hall).
      - simpl in Hreq. eexists (_ :: new). rewrite Hreq, <- app_assoc.
        split; [done|]. by constructor.
      - simpl. by apply nothing_to_resume_Remove. }
    injection H as <- <-. simpl. eexists [_]. split; [done|]. by repeat constructor.
Qed.

(** X8.  With nothing to resume, a missing or empty destination, no request
    of the download carries a [Range] header, however often the download
    starts over. *)
Theorem downloadFile_no_range w url dest :
  FS.tree (disk w) !! dest = None \/
  FS.tree (disk w) !! dest = Some (File (Bytes "")) ->
  exists new, requests (downloadFile w url dest).2 = requests w ++ new /\
              Forall (fun req => Range req = None) new.
Proof.
  intros Hz. unfold downloadFile.
  destruct (downloadFile_from (script w) w url dest) as [e w'] eqn:H.
  by apply (downloadFile_from_no_range _ _ _ _ _ _ Hz H).
Qed.

Lemma downloadFile_no_range_witness :
  exists new,
    requests (downloadFile Examples.fresh "http://srv/a" (archivePath Examples.entry100)).2
      = requests Examples.fresh ++ new /\
    Forall (fun req => Range req = None) new.
Proof.
  apply (downloadFile_no_range Examples.fresh "http://srv/a"
           (archivePath Examples.entry100)).
  left. vm_compute. reflexivity.
Defined.

(** X9.  When the latest block cannot be resolved, [EnsureSnapshot] returns
    the error of the resolution, wrapped, and has created nothing on disk. *)
Theorem EnsureSnapshot_unresolved f w cfg e w1 :
  wantsLatest cfg = true ->
  resolveLatestBlock w (baseOf f cfg) (networkOf cfg) (clientOf cfg) = (Fail e, w1) ->
  EnsureSnapshot f w cfg = (Fail (Wrap "failed to resolve latest block" e), w1) /\
  disk w1 = disk w.
Proof.
  intros Hlatest Hres. split; [|by eapply resolveLatestBlock_disk].
  unfold EnsureSnapshot, wantsLatest in *.
  fold (networkOf cfg) (clientOf cfg) (baseOf f cfg) (cacheOf f cfg).
  destruct (bool_decide (BlockNumber cfg = "")) eqn:E1.
  - rewrite bool_decide_eq_true_2 by done. by rewrite Hres.
  - simpl in Hlatest. rewrite Hlatest. by rewrite Hres.
Qed.

Lemma EnsureSnapshot_unresolved_witness :
  EnsureSnapshot Examples.fetcher Examples.broken (Examples.request "latest")
    = (Fail (Wrap "failed to resolve latest block" NetError),
       (resolveLatestBlock Examples.broken "http://srv" "mainnet" "geth").2) /\
  disk (resolveLatestBlock Examples.broken "http://srv" "mainnet" "geth").2
    = disk Examples.broken.
Proof.
  apply (EnsureSnapshot_unresolved Examples.fetcher Examples.broken
           (Examples.request "latest") NetError).
  - reflexivity.
  - vm_compute. reflexivity.
Defined.

End FetcherProperties.

(** ** More about the overlay manager *)

Section ManagerFacts.
Import Overlay Props OverlayProps OverlayExtra.

Lemma make_dirs_made (dirs : list path) : forall d d',
  make_dirs d dirs = (None, d') ->
  forall dir, dir ∈ dirs -> dir <> [] -> FS.tree d' !! dir = Some Dir.
Proof.
  induction dirs as [|x rest IH]; intros d d' H dir Hin Hne; simpl in H.
  - by apply elem_of_nil in Hin.
  - destruct (FS.MkdirAll d x) as [[e|] d1] eqn:Hmk; [done|].
    apply elem_of_cons in Hin as [->|Hin].
    + assert (Hmono : forall q n, FS.tree d1 !! q = Some n -> FS.tree d' !! q = Some n).
      { clear -H. revert d1 H. induction rest as [|y rest IH]; intros d1 H; simpl in H.
        - by inversion H; subst.
        - destruct (FS.MkdirAll d1 y) as [[e2|] d2] eqn:Hmk2; [done|].
          intros q n Hq. eapply IH; [exact H|]. by eapply MkdirAll_mono. }
      apply Hmono. by eapply MkdirAll_ok.
    + by eapply IH.
Qed.

Lemma mountOverlay_ok m w mount w' :
  mountOverlay m w mount = (None, w') ->
  goos (config m) = Linux /\ w' = with_mounted (MergedDir mount :: mounted w) w.
Proof.
  unfold mountOverlay. destruct (goos (config m)); [|done].
  destruct (mount_errno w (MergedDir mount)) as [e|].
  - by destruct (IsPermission e).
  - by intros [= <-].
Qed.

(** Everything a successful [CreateOverlay] has done. *)
Lemma CreateOverlay_Ret_full m w containerID cfg mount m' w' :
  CreateOverlay m w containerID cfg = (Ret mount, m', w') ->
  mount = {| ID := nextOverlayID w containerID; ContainerID := containerID;
             LowerDir := SnapshotPath cfg;
             UpperDir := Join (overlayDirOf m (nextOverlayID w containerID)) ["upper"];
             WorkDir := Join (overlayDirOf m (nextOverlayID w containerID)) ["work"];
             MergedDir := Join (overlayDirOf m (nextOverlayID w containerID)) ["merged"];
             ContainerPath := ContainerMountPath cfg;
             CreatedAt := clock w + 1 |} /\
  FS.Stat (disk w) (SnapshotPath cfg) = inr Dir /\
  goos (config m) = Linux /\
  exists d w3,
    make_dirs (disk w) (overlay_dirs m (nextOverlayID w containerID)) = (None, d) /\
    disk w3 = d /\ mounted w3 = MergedDir mount :: mounted w /\
    same_tables w w3 /\
    w' = (persistState m' w3).2.
Proof.
  unfold CreateOverlay.
  destruct (overlays m !! containerID) as [mt|] eqn:Hreg; [done|].
  destruct (FS.Stat (disk w) (SnapshotPath cfg)) as [e0|info] eqn:Hst.
  { by destruct (IsNotExist e0). }
  destruct info as [c|]; cbn [IsDir negb]; [done|].
  destruct (GoString.len containerID <? 12)%nat eqn:Hlen; [done|].
  cbn [Now disk with_disk clock]. fold (nextOverlayID w containerID).
  fold (overlay_dirs m (nextOverlayID w containerID)).
  destruct (make_dirs (disk w) _) as [[e1|] d] eqn:Hmk; [done|].
  destruct (mountOverlay m _ _) as [[err|] w3] eqn:Hmnt; [done|].
  apply mountOverlay_ok in Hmnt as (Hos & ->).
  intros [= <- <- <-]. split; [done|]. split; [done|]. split; [done|].
  eexists d, _. split; [done|].
  assert (Hlast : forall P Q R S : Prop, S -> (S -> P /\ Q /\ R) -> P /\ Q /\ R /\ S)
    by tauto.
  apply Hlast; [reflexivity|intros _]. cbn.
  destruct (make_dirs_spec _ _ _ _ _ _ Hmk (overlay_dirs_below _ _)) as (Hf & _).
  by repeat split.
Qed.

Lemma statePath_not_dir_of m id (sub : string) :
  statePath m <> Join (overlayDirOf m id) [sub].
Proof.
  unfold statePath, overlayDirOf, Join. rewrite <- app_assoc. intros H.
  apply app_inv_head in H. discriminate.
Qed.

Lemma persistState_mounted m w : mounted (persistState m w).2 = mounted w.
Proof.
  unfold persistState. destruct (bool_decide _); [done|].
  by destruct (FS.WriteFile _ _ _) as [[e|] d].
Qed.


Lemma cleanup_fold_ok m (l : list (string * Mount)) : forall acc,
  acc.1 = None ->
  (forall entry, entry ∈ l -> cleanable m acc.2 entry.2) ->
  (foldl (cleanup_step m) acc l).1 = None.
Proof.
  induction l as [|x l IH]; intros acc Hacc Hall; simpl; [done|].
  apply IH.
  - unfold cleanup_step.
    destruct (cleanupMount_cleanable m acc.2 x.2) as [w1 Hw1].
    { apply Hall. by left. }
    by rewrite Hw1.
  - intros entry Hin. eapply cleanable_shrinks; [|apply Hall; by right].
    unfold cleanup_step. destruct (cleanupMount m acc.2 x.2) as [[err|] w1] eqn:Hc;
      by apply cleanupMount_spec in Hc as (Hs & _).
Qed.

End ManagerFacts.

Section ManagerProperties.
Import Overlay Props OverlayProps OverlayExtra.



(** X11.  What a successful [CreateOverlay] leaves behind.  The mount is
    named after the first twelve bytes of the container identifier and the
    clock; its lower directory is the snapshot path of the request, which was
    found to be a directory; its upper, work and merged directories exist
    below the overlay directory; the merged directory is a mount point; the
    mount is registered under the container, and no other registration has
    changed.  Success is possible on Linux only. *)
Theorem CreateOverlay_success m w containerID cfg mount m' w' :
  CreateOverlay m w containerID cfg = (Ret mount, m', w') ->
  ID mount = GoString.prefix 12 containerID +:+ "_" +:+ pretty (clock w) /\
  ContainerID mount = containerID /\
  LowerDir mount = SnapshotPath cfg /\
  FS.Stat (disk w) (SnapshotPath cfg) = inr Dir /\
  UpperDir mount = Join (BaseDir (config m)) [ID mount; "upper"] /\
  WorkDir mount = Join (BaseDir (config m)) [ID mount; "work"] /\
  MergedDir mount = Join (BaseDir (config m)) [ID mount; "merged"] /\
  FS.tree (disk w') !! UpperDir mount = Some Dir /\
  FS.tree (disk w') !! WorkDir mount = Some Dir /\
  FS.tree (disk w') !! MergedDir mount = Some Dir /\
  mounted w' = MergedDir mount :: mounted w /\
  GetOverlay m' containerID = Some mount /\
  (forall c, c <> containerID -> GetOverlay m' c = GetOverlay m c) /\
  goos (config m) = Linux.
Proof.
  intros H. pose proof (CreateOverlay_Ret_inv _ _ _ _ _ _ _ H) as (_ & _ & _ & Hm' & _).
  apply CreateOverlay_Ret_full
    in H as (Hmount & Hst & Hos & d & w3 & Hmk & Hd & Hmnt & _ & ->).
  assert (Hmade : forall sub : string,
            sub ∈ ["upper"; "work"; "merged"] ->
            FS.tree (disk (persistState m' w3).2)
              !! Join (BaseDir (config m)) [nextOverlayID w containerID; sub]
            = Some Dir).
  { intros sub Hsub. rewrite persistState_other.
    - rewrite Hd. apply (make_dirs_made _ _ _ Hmk).
      + unfold overlay_dirs, overlayDirOf, Join. rewrite <- !app_assoc.
        apply elem_of_cons in Hsub as [->|Hsub]; [by left|].
        apply elem_of_cons in Hsub as [->|Hsub]; [right; by left|].
        apply elem_of_cons in Hsub as [->|Hsub]; [right; right; by left|].
        by apply elem_of_nil in Hsub.
      + unfold Join. by destruct (BaseDir (config m)).
    - rewrite Hm', statePath_with_overlays. intros Heq.
      apply (statePath_not_dir_of m (nextOverlayID w containerID) sub).
      rewrite <- Heq. unfold overlayDirOf, Join. by rewrite <- app_assoc. }
  assert (Hid : ID mount = nextOverlayID w containerID) by (by rewrite Hmount).
  assert (Hup : UpperDir mount
                = Join (BaseDir (config m)) [nextOverlayID w containerID; "upper"]).
  { rewrite Hmount. cbn. unfold overlayDirOf, Join. by rewrite <- app_assoc. }
  assert (Hwk : WorkDir mount
                = Join (BaseDir (config m)) [nextOverlayID w containerID; "work"]).
  { rewrite Hmount. cbn. unfold overlayDirOf, Join. by rewrite <- app_assoc. }
  assert (Hmg : MergedDir mount
                = Join (BaseDir (config m)) [nextOverlayID w containerID; "merged"]).
  { rewrite Hmount. cbn. unfold overlayDirOf, Join. by rewrite <- app_assoc. }
  rewrite Hup, Hwk, Hmg, Hid.
  split; [done|]. split; [by rewrite Hmount|]. split; [by rewrite Hmount|].
  split; [done|]. split; [done|]. split; [done|]. split; [done|].
  split; [apply Hmade; by left|].
  split; [apply Hmade; right; by left|].
  split; [apply Hmade; right; right; by left|].
  split; [by rewrite persistState_mounted, Hmnt, Hmg|].
  split; [unfold GetOverlay; rewrite Hm'; cbn; apply lookup_insert_eq|].
  split; [|done].
  intros c Hc. unfold GetOverlay. rewrite Hm'. cbn. by rewrite lookup_insert_ne.
Qed.

Lemma CreateOverlay_success_witness :
  ID OverlayExamples.mount1
    = GoString.prefix 12 OverlayExamples.containerID +:+ "_"
        +:+ pretty (clock OverlayExamples.healthy) /\
  ContainerID OverlayExamples.mount1 = OverlayExamples.containerID /\
  LowerDir OverlayExamples.mount1 = SnapshotPath OverlayExamples.snapshot /\
  FS.Stat (disk OverlayExamples.healthy) (SnapshotPath OverlayExamples.snapshot)
    = inr Dir /\
  UpperDir OverlayExamples.mount1
    = Join (BaseDir (config OverlayExamples.fresh_manager))
        [ID OverlayExamples.mount1; "upper"] /\
  WorkDir OverlayExamples.mount1
    = Join (BaseDir (config OverlayExamples.fresh_manager))
        [ID OverlayExamples.mount1; "work"] /\
  MergedDir OverlayExamples.mount1
    = Join (BaseDir (config OverlayExamples.fresh_manager))
        [ID OverlayExamples.mount1; "merged"] /\
  FS.tree (disk OverlayExamples.world1) !! UpperDir OverlayExamples.mount1 = Some Dir /\
  FS.tree (disk OverlayExamples.world1) !! WorkDir OverlayExamples.mount1 = Some Dir /\
  FS.tree (disk OverlayExamples.world1) !! MergedDir OverlayExamples.mount1 = Some Dir /\
  mounted OverlayExamples.world1
    = MergedDir OverlayExamples.mount1 :: mounted OverlayExamples.healthy /\
  GetOverlay OverlayExamples.manager1 OverlayExamples.containerID
    = Some OverlayExamples.mount1 /\
  (forall c, c <> OverlayExamples.containerID ->
     GetOverlay OverlayExamples.manager1 c
       = GetOverlay OverlayExamples.fresh_manager c) /\
  goos (config OverlayExamples.fresh_manager) = Linux.
Proof.
  apply (CreateOverlay_success OverlayExamples.fresh_manager OverlayExamples.healthy
           OverlayExamples.containerID OverlayExamples.snapshot
           OverlayExamples.mount1 OverlayExamples.manager1 OverlayExamples.world1).
  vm_compute. reflexivity.
Defined.



(** X13.  One overlay per container: once [CreateOverlay] has succeeded for a
    container, every further [CreateOverlay] for it is refused with
    [ErrOverlayExists], whatever the request and the state of the host, and
    changes nothing. *)
Theorem CreateOverlay_twice m w containerID cfg mount m' w' :
  CreateOverlay m w containerID cfg = (Ret mount, m', w') ->
  forall w2 cfg2,
    CreateOverlay m' w2 containerID cfg2 = (Fail ErrOverlayExists, m', w2).
Proof.
  intros H w2 cfg2. apply CreateOverlay_Ret_inv in H as (_ & _ & _ & -> & _).
  unfold CreateOverlay. cbn [overlays with_overlays]. by rewrite lookup_insert_eq.
Qed.

Lemma CreateOverlay_twice_witness :
  CreateOverlay OverlayExamples.manager1 OverlayExamples.world1
    OverlayExamples.containerID OverlayExamples.snapshot
    = (Fail ErrOverlayExists, OverlayExamples.manager1, OverlayExamples.world1).
Proof.
  apply (CreateOverlay_twice OverlayExamples.fresh_manager OverlayExamples.healthy
           OverlayExamples.containerID OverlayExamples.snapshot
           OverlayExamples.mount1 OverlayExamples.manager1 OverlayExamples.world1).
  vm_compute. reflexivity.
Defined.




(** X15.  When every registered overlay can be cleaned up, [CleanupAll]
    returns without error, the registry is empty, and the directory of every
    overlay that was registered is gone. *)
Theorem CleanupAll_clean m w :
  (forall c mount, overlays m !! c = Some mount -> cleanable m w mount) ->
  exists m' w',
    CleanupAll m w = (None, m', w') /\
    overlays m' = ∅ /\
    (forall c, GetOverlay m' c = None) /\
    (forall c mount, overlays m !! c = Some mount ->
       absent (FS.tree (disk w')) (overlayDirOf m (ID mount))).
Proof.
  intros Hall. unfold CleanupAll.
  destruct (cleanup_each m w (overlays m)) as [lastErr w1] eqn:Hloop.
  assert (Hnone : lastErr = None).
  { unfold cleanup_each in Hloop.
    pose proof (cleanup_fold_ok m (map_to_list (overlays m)) (None, w) eq_refl) as Hok.
    rewrite Hloop in Hok. apply Hok. intros [c mount] Hin.
    apply elem_of_map_to_list in Hin. by eapply Hall. }
  subst lastErr. eexists _, _. split; [done|]. cbn [overlays with_overlays].
  split; [done|]. split; [intros c; apply lookup_empty|].
  intros c mount Hc q Hq. cbn [disk with_disk].
  apply cleanup_each_spec in Hloop as (_ & Hgone).
  destruct (FS.tree (FS.Remove (disk w1) (statePath m)).2 !! q) as [n|] eqn:E; [|done].
  apply Remove_lookup in E. by rewrite (Hgone c mount Hc (Hall c mount Hc) q Hq) in E.
Qed.

Lemma CleanupAll_clean_witness :
  exists m' w',
    CleanupAll OverlayExamples.manager1 OverlayExamples.world1 = (None, m', w') /\
    overlays m' = ∅ /\
    (forall c, GetOverlay m' c = None) /\
    (forall c mount, overlays OverlayExamples.manager1 !! c = Some mount ->
       absent (FS.tree (disk w'))
         (overlayDirOf OverlayExamples.manager1 (ID mount))).
Proof.
  apply (CleanupAll_clean OverlayExamples.manager1 OverlayExamples.world1).
  intros c mount Hc. split; [reflexivity|]. split; [reflexivity|].
  right. left. reflexivity.
Defined.

(** X16.  Off Linux there are no overlays: [CreateOverlay] never returns a
    mount and never changes the registry, and [CleanupOverlay] of a
    registered container fails with [ErrOverlayNotSupported] and keeps the
    entry. *)
Theorem not_supported_off_linux m w :
  goos (config m) = OtherOS ->
  (forall containerID cfg r m' w',
     CreateOverlay m w containerID cfg = (r, m', w') ->
     m' = m /\ forall mount, r <> Ret mount) /\
  (forall c mount,
     overlays m !! c = Some mount ->
     exists err, CleanupOverlay m w c = (Some err, m, w) /\
                 errors_Is err ErrOverlayNotSupported = true).
Proof.
  intros Hos. split.
  - intros containerID cfg r m' w' H. destruct r as [mount|e|reason].
    + apply CreateOverlay_Ret_full in H as (_ & _ & Hlinux & _). congruence.
    + apply CreateOverlay_Fail_inv in H as (-> & _). split; [done|]. by intros mount.
    + split; [|by intros mount]. revert H. unfold CreateOverlay.
      destruct (overlays m !! containerID) as [mt|]; [done|].
      destruct (FS.Stat (disk w) (SnapshotPath cfg)) as [e0|info].
      { by destruct (IsNotExist e0). }
      destruct info as [c|]; cbn [IsDir negb]; [done|].
      destruct (GoString.len containerID <? 12)%nat; [by intros [= _ <- _]|].
      cbn [Now disk with_disk clock].
      destruct (make_dirs (disk w) _) as [[e1|] d]; [done|].
      by destruct (mountOverlay m _ _) as [[err|] w3].
  - intros c mount Hreg. unfold CleanupOverlay, cleanupMount. rewrite Hreg, Hos.
    by eexists.
Qed.

Lemma not_supported_off_linux_witness :
  (forall containerID cfg r m' w',
     CreateOverlay {| config := {| BaseDir := ["overlays"]; goos := OtherOS |};
                      overlays := ∅ |}
       OverlayExamples.healthy containerID cfg = (r, m', w') ->
     m' = {| config := {| BaseDir := ["overlays"]; goos := OtherOS |};
             overlays := ∅ |} /\
     forall mount, r <> Ret mount) /\
  (forall c mount,
     overlays {| config := {| BaseDir := ["overlays"]; goos := OtherOS |};
                 overlays := ∅ |} !! c = Some mount ->
     exists err,
       CleanupOverlay {| config := {| BaseDir := ["overlays"]; goos := OtherOS |};
                         overlays := ∅ |} OverlayExamples.healthy c
         = (Some err, {| config := {| BaseDir := ["overlays"]; goos := OtherOS |};
                         overlays := ∅ |}, OverlayExamples.healthy) /\
       errors_Is err ErrOverlayNotSupported = true).
Proof.
  apply (not_supported_off_linux
           {| config := {| BaseDir := ["overlays"]; goos := OtherOS |}; overlays := ∅ |}
           OverlayExamples.healthy).
  reflexivity.
Defined.

(** X17.  How a refused mount is reported.  On Linux, once the preconditions
    hold and the three directories were made, an [errno] from the mount
    system call makes [CreateOverlay] fail with [ErrPermissionDenied] when it
    is EACCES or EPERM and with [ErrMountFailed] otherwise, never both; the
    registry is unchanged and the mount table too. *)
Theorem CreateOverlay_mount_refused m w containerID cfg d en :
  goos (config m) = Linux ->
  overlays m !! containerID = None ->
  FS.Stat (disk w) (SnapshotPath cfg) = inr Dir ->
  (12 <= GoString.len containerID)%nat ->
  make_dirs (disk w) (overlay_dirs m (nextOverlayID w containerID)) = (None, d) ->
  mount_errno w (Join (overlayDirOf m (nextOverlayID w containerID)) ["merged"])
    = Some en ->
  exists err w',
    CreateOverlay m w containerID cfg = (Fail err, m, w') /\
    errors_Is err ErrPermissionDenied = IsPermission en /\
    errors_Is err ErrMountFailed = negb (IsPermission en) /\
    mounted w' = mounted w.
Proof.
  intros Hos Hreg Hst Hlen Hmk Hmnt. unfold CreateOverlay. rewrite Hreg, Hst.
  cbn [IsDir negb]. apply Nat.ltb_ge in Hlen. rewrite Hlen.
  cbn [Now disk with_disk clock]. fold (nextOverlayID w containerID).
  fold (overlay_dirs m (nextOverlayID w containerID)). rewrite Hmk.
  unfold mountOverlay. rewrite Hos.
  cbn [MergedDir mount_errno with_disk mounted proc_mounts_readable umount_errno
       clock disk Now]. rewrite Hmnt.
  destruct (IsPermission en); eexists _, _; (split; [done|]); by repeat split.
Qed.

Lemma CreateOverlay_mount_refused_witness :
  exists err w',
    CreateOverlay OverlayExamples.fresh_manager OverlayExamples.mount_refused
      OverlayExamples.containerID OverlayExamples.snapshot
      = (Fail err, OverlayExamples.fresh_manager, w') /\
    errors_Is err ErrPermissionDenied = IsPermission EPERM /\
    errors_Is err ErrMountFailed = negb (IsPermission EPERM) /\
    mounted w' = mounted OverlayExamples.mount_refused.
Proof.
  apply (CreateOverlay_mount_refused OverlayExamples.fresh_manager
           OverlayExamples.mount_refused OverlayExamples.containerID
           OverlayExamples.snapshot
           (make_dirs (disk OverlayExamples.mount_refused)
              (overlay_dirs OverlayExamples.fresh_manager
                 (nextOverlayID OverlayExamples.mount_refused
                    OverlayExamples.containerID))).2).
  - reflexivity.
  - reflexivity.
  - vm_compute. reflexivity.
  - vm_compute. lia.
  - vm_compute. reflexivity.
  - reflexivity.
Defined.

(** X18.  When the mount table can be read, a [cleanupMount] that returns
    without error leaves no mount at the merged directory. *)
Theorem cleanupMount_unmounts m w mount w' :
  cleanupMount m w mount = (None, w') ->
  proc_mounts_readable w = true ->
  MergedDir mount ∉ mounted w'.
Proof.
  unfold cleanupMount. intros H Hread. destruct (goos (config m)) eqn:Hos; [|done].
  assert (Hdirs : forall w0 w1, cleanupDirs m w0 mount = (None, w1) ->
                    MergedDir mount ∉ mounted w0 -> MergedDir mount ∉ mounted w1).
  { intros w0 w1 Hc Hnot Hin. apply cleanupDirs_spec in Hc as ((_ & _ & Hm) & _).
    by apply Hnot, Hm. }
  assert (Hum : forall w0 flags w1, Unmount w0 (MergedDir mount) flags = (None, w1) ->
                  MergedDir mount ∉ mounted w1).
  { intros w0 flags w1. unfold Unmount.
    destruct (umount_errno w0 (MergedDir mount) flags); [done|].
    intros [= <-]. cbn. intros Hin. apply list_elem_of_filter in Hin. tauto. }
  destruct (isMounted m w (MergedDir mount)) eqn:Hm; cbn [negb] in H.
  2: { eapply Hdirs; [exact H|]. unfold isMounted in Hm. rewrite Hos, Hread in Hm.
       by apply bool_decide_eq_false in Hm. }
  destruct (Unmount w (MergedDir mount) 0) as [[e1|] w1] eqn:H1.
  2: { eapply Hdirs; [exact H|]. by eapply Hum. }
  destruct (Unmount w1 (MergedDir mount) MNT_DETACH) as [[e2|] w2] eqn:H2.
  2: { eapply Hdirs; [exact H|]. by eapply Hum. }
  unfold killProcesses in H. cbn [snd] in H.
  destruct (Unmount w2 (MergedDir mount) _) as [[e3|] w3] eqn:H3; [done|].
  eapply Hdirs; [exact H|]. by eapply Hum.
Qed.

Lemma cleanupMount_unmounts_witness :
  MergedDir OverlayExamples.mount1
    ∉ mounted (cleanupMount OverlayExamples.manager1 OverlayExamples.world1
                 OverlayExamples.mount1).2.
Proof.
  apply (cleanupMount_unmounts OverlayExamples.manager1 OverlayExamples.world1).
  - vm_compute. reflexivity.
  - reflexivity.
Defined.

End ManagerProperties.

(** ** The snapshot manager of hivesim, continued *)

Section HiveSimProperties.
Import Snapshot Props HiveSim HiveSimExtra.


Lemma hivesim_downloadFile_spec w url dest e w' :
  HiveSim.downloadFile w url dest = (e, w') ->
  url_invalid w' = url_invalid w /\
  (forall q, q <> dest -> FS.tree (disk w') !! q = FS.tree (disk w) !! q) /\
  (e = None -> exists c, FS.tree (disk w') !! dest = Some (File c)) /\
  (url_invalid w url = false ->
   requests w' = requests w ++ [{| URL := url; Range := None |}]).
Proof.
  unfold HiveSim.downloadFile. destruct (url_invalid w url) eqn:Hurl.
  { by intros [= <- <-]. }
  unfold Do. destruct (script w) as [|[|resp] rest]; cbn [fst snd];
    try by intros [= <- <-].
  destruct (negb _); [by intros [= <- <-]|]. cbn [send disk].
  destruct (FS.WriteFile (disk w) dest (Bytes "")) as [[e0|] d] eqn:Hw;
    [by intros [= <- <-]|].
  unfold copy_body. intros [= <- <-]. cbn.
  assert (Hd : d = (FS.WriteFile (disk w) dest (Bytes "")).2) by (by rewrite Hw).
  repeat split; try done.
  - intros q Hq. rewrite lookup_insert_ne by done. rewrite Hd.
    by apply WriteFile_other.
  - intros _. eexists. apply lookup_insert_eq.
Qed.

Lemma fetchMetadata_spec w url ok w' :
  fetchMetadata w url = (ok, w') ->
  disk w' = disk w /\
  exists more, requests w' = requests w ++ more /\ (length more <= 1)%nat.
Proof.
  unfold fetchMetadata. destruct (url_invalid w url).
  { intros [= <- <-]. split; [done|]. exists [].
    split; [by rewrite app_nil_r|simpl; lia]. }
  unfold Do. destruct (script w) as [|[|resp] rest]; intros [= <- <-]; cbn;
    (split; [done|]); eexists [_]; (split; [reflexivity|simpl; lia]).
Qed.

Lemma extractTarZst_requests w archive dest e w' :
  Snapshot.extractTarZst w archive dest = (e, w') -> requests w' = requests w.
Proof.
  unfold Snapshot.extractTarZst.
  destruct (negb (zstd_found w)); [by intros [= _ <-]|].
  destruct (FS.tree (disk w) !! archive) as [[[b|reg]|]|]; try by intros [= _ <-].
  destruct (untar w b) as [ok entries]. by intros [= _ <-].
Qed.

Lemma hivesim_extract_spec w archive dest e w' :
  HiveSim.extractTarZst w archive dest = (e, w') ->
  FS.fault (disk w') = FS.fault (disk w) /\
  requests w' = requests w /\
  (forall q, ~ (FS.under dest q /\ q <> dest) ->
             FS.tree (disk w') !! q = FS.tree (disk w) !! q).
Proof.
  unfold HiveSim.extractTarZst.
  destruct (Snapshot.extractTarZst w archive dest) as [[e0|] w1] eqn:Hex;
    intros [= <- <-];
    pose proof (extractTarZst_spec _ _ _ _ _ Hex) as (Hf & Ho);
    pose proof (extractTarZst_requests _ _ _ _ _ Hex); done.
Qed.

End HiveSimProperties.

Section HiveSimClaims.
Import Snapshot Props HiveSim HiveSimExtra ExtraProps.

(** Once the entry directory is made and the archive URL is valid, the first
    request of [downloadSnapshot] asks for the archive, without a range, and
    at most one more request follows. *)
Lemma hivesim_downloadSnapshot_requests mgr w network client block destDir e w' :
  HiveSim.downloadSnapshot mgr w network client block destDir = (e, w') ->
  (FS.MkdirAll (disk w) destDir).1 = None ->
  url_invalid w (hivesim_archive_url mgr network client block) = false ->
  exists more,
    requests w' = requests w
      ++ {| URL := hivesim_archive_url mgr network client block; Range := None |}
      :: more /\
    (length more <= 1)%nat.
Proof.
  unfold HiveSim.downloadSnapshot. fold (hivesim_archive_url mgr network client block).
  intros H Hmk Hurl.
  destruct (FS.MkdirAll (disk w) destDir) as [[e1|] d1]; [done|]. clear Hmk.
  destruct (HiveSim.downloadFile _ _ _) as [e2 w2] eqn:Hdl.
  apply hivesim_downloadFile_spec in Hdl as (_ & _ & _ & Hreq).
  specialize (Hreq Hurl). cbn in Hreq.
  destruct e2 as [e2|].
  { injection H as <- <-. exists []. cbn. split; [done|lia]. }
  destruct (FS.MkdirAll (disk w2) (dataDir destDir)) as [[e3|] d3].
  { injection H as <- <-. exists []. cbn. split; [done|lia]. }
  destruct (HiveSim.extractTarZst _ _ _) as [[e4|] w4] eqn:Hex;
    apply hivesim_extract_spec in Hex as (_ & Hreq4 & _); cbn in Hreq4.
  { injection H as <- <-. exists []. cbn. rewrite Hreq4. split; [done|lia]. }
  destruct (fetchMetadata _ _) as [fetched w5] eqn:Hmeta.
  apply fetchMetadata_spec in Hmeta as (_ & more & Hreq5 & Hlen).
  injection H as <- <-. exists more. cbn. rewrite Hreq5, Hreq4, Hreq, <- app_assoc.
  done.
Qed.

(** X19.  A download by the manager of hivesim that returns without error
    leaves a [data] directory and no archive (unless the removal failed), and
    a [metadata.json] (unless the write failed).  It has asked for the archive
    first and made at most one more request, for the block description. *)
Theorem hivesim_downloadSnapshot_success mgr w network client block destDir w' :
  HiveSim.downloadSnapshot mgr w network client block destDir = (None, w') ->
  destDir <> [] ->
  FS.tree (disk w') !! dataDir destDir = Some Dir /\
  (FS.fault (disk w) FS.OpRemove (archivePath destDir) = false ->
   FS.tree (disk w') !! archivePath destDir = None) /\
  (FS.fault (disk w) FS.OpWrite (Join destDir ["metadata.json"]) = false ->
   is_Some (FS.tree (disk w') !! Join destDir ["metadata.json"])) /\
  exists more,
    requests w' = requests w
      ++ {| URL := hivesim_archive_url mgr network client block; Range := None |}
      :: more /\
    (length more <= 1)%nat.
Proof.
  intros H Hne.
  assert (Hreqs : exists more,
            requests w' = requests w
              ++ {| URL := hivesim_archive_url mgr network client block;
                    Range := None |} :: more /\ (length more <= 1)%nat).
  { eapply hivesim_downloadSnapshot_requests; [exact H| |].
    - revert H. unfold HiveSim.downloadSnapshot.
      by destruct (FS.MkdirAll (disk w) destDir) as [[e1|] d1].
    - revert H. unfold HiveSim.downloadSnapshot.
      fold (hivesim_archive_url mgr network client block).
      destruct (FS.MkdirAll (disk w) destDir) as [[e1|] d1]; [done|].
      unfold HiveSim.downloadFile. cbn [url_invalid with_disk].
      by destruct (url_invalid w _). }
  split; [|split; [|split; [|exact Hreqs]]]; clear Hreqs; revert H;
    unfold HiveSim.downloadSnapshot;
    fold (hivesim_archive_url mgr network client block);
    destruct (FS.MkdirAll (disk w) destDir) as [[e1|] d1] eqn:Hmk; try done;
    destruct (HiveSim.downloadFile _ _ _) as [[e2|] w2] eqn:Hdl; try done;
    destruct (FS.MkdirAll (disk w2) (dataDir destDir)) as [[e3|] d3] eqn:Hmk2; try done;
    destruct (HiveSim.extractTarZst _ _ _) as [[e4|] w4] eqn:Hex; try done;
    destruct (fetchMetadata _ _) as [fetched w5] eqn:Hmeta;
    intros [= <-];
    pose proof (MkdirAll_fault _ _ _ _ Hmk) as Hf1;
    pose proof (MkdirAll_ok _ _ _ Hmk Hne) as Hdest1;
    pose proof (hivesim_downloadFile_fault _ _ _ _ _ Hdl) as Hf2;
    apply hivesim_downloadFile_spec in Hdl as (_ & Hoth2 & Hfile2 & _);
    destruct (Hfile2 eq_refl) as [c2 Harch2];
    pose proof (MkdirAll_fault _ _ _ _ Hmk2) as Hf3;
    apply hivesim_extract_spec in Hex as (Hf4 & _ & Hoth4);
    apply fetchMetadata_spec in Hmeta as (Hd5 & _);
    cbn [disk with_disk] in *.
  - rewrite Remove_other by apply data_not_archive.
    rewrite WriteFile_other.
    2: { unfold dataDir, Join. intros Heq. apply app_inv_head in Heq. discriminate. }
    rewrite Hd5, Hoth4 by (intros [_ ?]; done).
    apply (MkdirAll_ok _ _ _ Hmk2). unfold dataDir, Join. by destruct destDir.
  - intros Hrm. apply Remove_gone.
    + rewrite WriteFile_fault, Hd5, Hf4, Hf3, Hf2, Hf1. done.
    + rewrite WriteFile_other.
      2: { unfold archivePath, Join. intros Heq. apply app_inv_head in Heq.
           discriminate. }
      rewrite Hd5.
      rewrite Hoth4 by (by apply (sibling_not_below_data destDir SnapshotFileName)).
      by rewrite (MkdirAll_mono _ _ _ _ _ _ Hmk2 Harch2).
  - intros Hwr. rewrite Remove_other.
    2: { unfold archivePath, Join. intros Heq. apply app_inv_head in Heq.
         discriminate. }
    assert (Hdest5 : FS.tree (disk w5) !! destDir = Some Dir).
    { rewrite Hd5, Hoth4 by apply entry_not_below_data.
      eapply MkdirAll_mono; [exact Hmk2|].
      rewrite Hoth2 by apply not_own_child. done. }
    assert (Hf5 : FS.fault (disk w5) = FS.fault (disk w)) by congruence.
    assert (Hcase : FS.tree (disk w5) !! Join destDir ["metadata.json"] = Some Dir \/
                    FS.tree (disk w5) !! Join destDir ["metadata.json"] <> Some Dir).
    { destruct (FS.tree (disk w5) !! Join destDir ["metadata.json"]) as [[c|]|]; auto. }
    destruct Hcase as [Hd|Hd].
    + unfold FS.WriteFile. rewrite Hf5, Hwr, Hd. simpl. by rewrite Hd.
    + unfold Join in *. rewrite WriteFile_written; try done.
      * simpl. by rewrite lookup_insert_eq.
      * by rewrite Hf5.
      * by right.
Qed.

Lemma hivesim_downloadSnapshot_success_witness :
  FS.tree (disk (HiveSim.downloadSnapshot
                   {| mgrBaseURL := "http://srv"; mgrCacheDir := ["cache"] |}
                   Examples.fresh "mainnet" "geth" "100" Examples.entry100).2)
    !! dataDir Examples.entry100 = Some Dir /\
  (FS.fault (disk Examples.fresh) FS.OpRemove (archivePath Examples.entry100) = false ->
   FS.tree (disk (HiveSim.downloadSnapshot
                    {| mgrBaseURL := "http://srv"; mgrCacheDir := ["cache"] |}
                    Examples.fresh "mainnet" "geth" "100" Examples.entry100).2)
     !! archivePath Examples.entry100 = None) /\
  (FS.fault (disk Examples.fresh) FS.OpWrite (Join Examples.entry100 ["metadata.json"])
     = false ->
   is_Some (FS.tree (disk (HiveSim.downloadSnapshot
                             {| mgrBaseURL := "http://srv"; mgrCacheDir := ["cache"] |}
                             Examples.fresh "mainnet" "geth" "100"
                             Examples.entry100).2)
            !! Join Examples.entry100 ["metadata.json"])) /\
  exists more,
    requests (HiveSim.downloadSnapshot
                {| mgrBaseURL := "http://srv"; mgrCacheDir := ["cache"] |}
                Examples.fresh "mainnet" "geth" "100" Examples.entry100).2
      = requests Examples.fresh
          ++ {| URL := hivesim_archive_url
                         {| mgrBaseURL := "http://srv"; mgrCacheDir := ["cache"] |}
                         "mainnet" "geth" "100";
                Range := None |} :: more /\
    (length more <= 1)%nat.
Proof.
  apply (hivesim_downloadSnapshot_success
           {| mgrBaseURL := "http://srv"; mgrCacheDir := ["cache"] |}
           Examples.fresh "mainnet" "geth" "100" Examples.entry100).
  - vm_compute. reflexivity.
  - discriminate.
Defined.





End HiveSimClaims.

(** ** Start options *)

Section StartOptionFacts.
Import StartOptions.

(** A [range] loop that stores every pair of [p] into a map overrides the
    map with [p]. *)
Lemma store_all_union {A B} (f : A -> B) (p : gmap string A) (env : gmap string B) :
  map_fold (fun k v acc => <[k := f v]> acc) env p = (f <$> p) ∪ env.
Proof.
  apply (map_fold_weak_ind
           (fun r (m : gmap string A) => r = (f <$> m) ∪ env)).
  - by rewrite fmap_empty, (left_id_L ∅ (∪)).
  - intros k v m r _ ->. by rewrite fmap_insert, insert_union_l.
Qed.

Lemma add_overlays_bundle (specs : list OverlaySpec) : forall setup,
  Bundle (map add_overlay specs) setup
    = with_overlay_specs (Overlays (setupConfig setup) ++ specs) setup.
Proof.
  unfold Bundle. induction specs as [|spec specs IH]; intros setup; cbn [map foldl].
  - rewrite app_nil_r. by destruct setup as [[] ?].
  - rewrite IH. unfold add_overlay, with_overlay_specs. cbn.
    by rewrite <- app_assoc.
Qed.

Lemma overlay_option_add (opt : StartOption) (spec : OverlaySpec) :
  StartOptionProps.overlay_option opt spec -> opt = add_overlay spec.
Proof.
  intros [| | | |client snap opt' Hsnap Hopt]; try reflexivity.
  unfold WithClientSnapshot in Hopt. rewrite Hsnap in Hopt.
  destruct (negb (HasSnapshot client)); [discriminate|]. by injection Hopt as <-.
Qed.

Lemma overlay_options_add (opts : list StartOption) (specs : list OverlaySpec) :
  Forall2 StartOptionProps.overlay_option opts specs -> opts = map add_overlay specs.
Proof.
  induction 1 as [|opt spec opts specs H _ IH]; [done|].
  cbn [map]. by rewrite (overlay_option_add _ _ H), IH.
Qed.

End StartOptionFacts.

Section StartOptionProperties.
Import StartOptions.

(** X22.  [WithClientSnapshot] gives no option for a client without a
    snapshot, that is without a snapshot section or with an empty network.
    For any other client the option adds one overlay request at the end of
    the list and changes nothing else; the request names the network of the
    section and the client itself, has no local snapshot path, and its
    container path is never empty: it is [/data] when the section gives
    none. *)
Theorem WithClientSnapshot_spec (client : ClientDefinition) :
  (HasSnapshot client = false -> WithClientSnapshot client = None) /\
  (HasSnapshot client = true ->
   exists opt spec,
     WithClientSnapshot client = Some opt /\
     (forall setup, opt setup
        = with_overlay_specs (Overlays (setupConfig setup) ++ [spec]) setup) /\
     SnapshotPath spec = "" /\
     Network spec <> "" /\
     Client spec = Name client /\
     ContainerPath spec <> "" /\
     (forall snap, Snapshot client = Some snap ->
        Network spec = snapNetwork snap /\
        BlockNumber spec = snapBlockNumber snap /\
        URL spec = snapURL snap /\
        (snapContainerPath snap <> "" -> ContainerPath spec = snapContainerPath snap) /\
        (snapContainerPath snap = "" -> ContainerPath spec = "/data"))).
Proof.
  unfold WithClientSnapshot. split.
  - by intros ->.
  - intros Hhas. rewrite Hhas. cbn [negb]. unfold HasSnapshot in Hhas.
    destruct (Snapshot client) as [snap|]; [|done].
    apply negb_true_iff, bool_decide_eq_false in Hhas.
    eexists _, _. split; [done|]. split; [done|]. cbn.
    split; [done|]. split; [done|]. split; [done|]. split.
    + unfold SnapshotContainerPath.
      destruct (bool_decide (snapContainerPath snap = "")) eqn:E; [done|].
      by apply bool_decide_eq_false in E.
    + intros snap' [= <-]. repeat split; unfold SnapshotContainerPath.
      * intros Hne. by rewrite bool_decide_eq_false_2.
      * intros He. by rewrite bool_decide_eq_true_2.
Qed.

Lemma WithClientSnapshot_spec_witness :
  exists opt spec,
    WithClientSnapshot
      {| Name := "go-ethereum"; Version := "1"; Roles := ["eth1"];
         Snapshot := Some {| snapNetwork := "mainnet"; snapURL := "";
                             snapBlockNumber := ""; snapContainerPath := "";
                             snapCacheDir := "" |} |} = Some opt /\
    (forall setup, opt setup
       = with_overlay_specs (Overlays (setupConfig setup) ++ [spec]) setup) /\
    SnapshotPath spec = "" /\
    Network spec <> "" /\
    Client spec
      = Name {| Name := "go-ethereum"; Version := "1"; Roles := ["eth1"];
                Snapshot := Some {| snapNetwork := "mainnet"; snapURL := "";
                                    snapBlockNumber := ""; snapContainerPath := "";
                                    snapCacheDir := "" |} |} /\
    ContainerPath spec <> "" /\
    (forall snap,
       Snapshot {| Name := "go-ethereum"; Version := "1"; Roles := ["eth1"];
                   Snapshot := Some {| snapNetwork := "mainnet"; snapURL := "";
                                       snapBlockNumber := ""; snapContainerPath := "";
                                       snapCacheDir := "" |} |} = Some snap ->
       Network spec = snapNetwork snap /\
       BlockNumber spec = snapBlockNumber snap /\
       URL spec = snapURL snap /\
       (snapContainerPath snap <> "" -> ContainerPath spec = snapContainerPath snap) /\
       (snapContainerPath snap = "" -> ContainerPath spec = "/data")).
Proof.
  apply (proj2 (WithClientSnapshot_spec
                  {| Name := "go-ethereum"; Version := "1"; Roles := ["eth1"];
                     Snapshot := Some {| snapNetwork := "mainnet"; snapURL := "";
                                         snapBlockNumber := ""; snapContainerPath := "";
                                         snapCacheDir := "" |} |})).
  reflexivity.
Defined.

(** X23.  Bundles compose: a bundle of two bundles acts like one bundle of
    all their options in order, and the empty bundle does nothing. *)
Theorem Bundle_flatten (a b : list StartOption) (setup : clientSetup) :
  Bundle [Bundle a; Bundle b] setup = Bundle (a ++ b) setup /\
  Bundle (a ++ b) setup = Bundle b (Bundle a setup) /\
  Bundle [] setup = setup.
Proof. unfold Bundle. cbn [foldl]. by rewrite foldl_app. Qed.

(** X24.  Applying [Params] sets every parameter in the environment of the
    client, replacing values that were there, and leaves every other variable
    and the rest of the setup as they were. *)
Theorem Params_apply_spec (p : gmap string string) (setup : clientSetup) :
  Environment (setupConfig (Params_apply p setup))
    = p ∪ Environment (setupConfig setup) /\
  (forall k v, p !! k = Some v ->
     Environment (setupConfig (Params_apply p setup)) !! k = Some v) /\
  (forall k, p !! k = None ->
     Environment (setupConfig (Params_apply p setup)) !! k
       = Environment (setupConfig setup) !! k) /\
  Overlays (setupConfig (Params_apply p setup)) = Overlays (setupConfig setup) /\
  Networks (setupConfig (Params_apply p setup)) = Networks (setupConfig setup) /\
  files (Params_apply p setup) = files setup.
Proof.
  unfold Params_apply. cbn.
  rewrite (store_all_union (fun v => v)), map_fmap_id.
  split; [done|]. split; [|split; [|done]].
  - intros k v Hk. by apply lookup_union_Some_l.
  - intros k Hk. by apply lookup_union_r.
Qed.

Lemma Params_apply_spec_witness :
  Environment (setupConfig
                 (Params_apply (<["HIVE_NODETYPE" := "full"]> ∅)
                    {| setupConfig := {| NodeClient := "geth"; Networks := [];
                                         Environment := <["HIVE_NODETYPE" := "archive"]> ∅;
                                         Overlays := [] |};
                       files := ∅ |})) !! "HIVE_NODETYPE" = Some "full".
Proof.
  apply (proj1 (proj2 (Params_apply_spec (<["HIVE_NODETYPE" := "full"]> ∅)
                         {| setupConfig := {| NodeClient := "geth"; Networks := [];
                                              Environment := <["HIVE_NODETYPE" := "archive"]> ∅;
                                              Overlays := [] |};
                            files := ∅ |}))).
  vm_compute. reflexivity.
Defined.

(** X25.  [Params.Copy] returns the same parameters, and [Params.Set] the
    same parameters with the one key set to the value. *)
Theorem Params_Set_spec (p : gmap string string) (key value : string) :
  Params_Copy p = p /\
  Params_Set p key value = <[key := value]> p /\
  Params_Set p key value !! key = Some value /\
  (forall k, k <> key -> Params_Set p key value !! k = p !! k).
Proof.
  assert (Hcopy : Params_Copy p = p).
  { unfold Params_Copy. rewrite (store_all_union (fun v => v)), map_fmap_id.
    apply (right_id_L ∅ (∪)). }
  unfold Params_Set. rewrite Hcopy. repeat split.
  - apply lookup_insert_eq.
  - intros k Hk. by apply lookup_insert_ne.
Qed.

Lemma Params_Set_spec_witness :
  Params_Set (<["HIVE_NODETYPE" := "full"]> ∅) "HIVE_JWTSECRET" "00" !! "HIVE_NODETYPE"
    = (<["HIVE_NODETYPE" := "full"]> ∅ : gmap string string) !! "HIVE_NODETYPE".
Proof.
  apply (proj2 (proj2 (proj2 (Params_Set_spec (<["HIVE_NODETYPE" := "full"]> ∅)
                                "HIVE_JWTSECRET" "00")))).
  discriminate.
Defined.

(** X26.  Static and dynamic files override each other: whichever option is
    applied last decides the source of a destination path. *)
Theorem files_last_wins (initFiles : gmap string string) (dst : string) (src : nat)
    (setup : clientSetup) :
  files (WithDynamicFile dst src (WithStaticFiles initFiles setup)) !! dst
    = Some (dynamicSrc src) /\
  (forall host, initFiles !! dst = Some host ->
     files (WithStaticFiles initFiles (WithDynamicFile dst src setup)) !! dst
       = Some (fileAsSrc host)) /\
  (initFiles !! dst = None ->
   files (WithStaticFiles initFiles (WithDynamicFile dst src setup)) !! dst
     = Some (dynamicSrc src)) /\
  (forall k, k <> dst -> initFiles !! k = None ->
     files (WithDynamicFile dst src (WithStaticFiles initFiles setup)) !! k
       = files setup !! k).
Proof.
  unfold WithDynamicFile, WithStaticFiles. cbn. rewrite !store_all_union.
  split; [apply lookup_insert_eq|]. split; [|split].
  - intros host Hk. apply lookup_union_Some_l. by rewrite lookup_fmap, Hk.
  - intros Hk. rewrite lookup_union_r by (by rewrite lookup_fmap, Hk).
    apply lookup_insert_eq.
  - intros k Hne Hk. rewrite lookup_insert_ne by done.
    apply lookup_union_r. by rewrite lookup_fmap, Hk.
Qed.

Lemma files_last_wins_witness :
  files (WithStaticFiles (<["/genesis.json" := "/host/genesis.json"]> ∅)
           (WithDynamicFile "/genesis.json" 0%nat
              {| setupConfig := {| NodeClient := "geth"; Networks := [];
                                   Environment := ∅; Overlays := [] |};
                 files := ∅ |})) !! "/genesis.json"
    = Some (fileAsSrc "/host/genesis.json").
Proof.
  apply (proj1 (proj2 (files_last_wins (<["/genesis.json" := "/host/genesis.json"]> ∅)
                         "/genesis.json" 0%nat
                         {| setupConfig := {| NodeClient := "geth"; Networks := [];
                                              Environment := ∅; Overlays := [] |};
                            files := ∅ |}))).
  vm_compute. reflexivity.
Defined.

(** X27.  Overlay requests accumulate: a bundle of overlay options
    ([WithOverlaySnapshot], [WithRemoteSnapshot], [WithRemoteSnapshotAt],
    [WithRemoteSnapshotURL], [WithClientSnapshot]) adds their requests to the
    end of the list, in the order of the options, keeps the requests that were
    there, and touches nothing else in the setup. *)
Theorem overlay_options_accumulate (opts : list StartOption)
    (specs : list OverlaySpec) (setup : clientSetup) :
  Forall2 StartOptionProps.overlay_option opts specs ->
  Overlays (setupConfig (Bundle opts setup))
    = Overlays (setupConfig setup) ++ specs /\
  Environment (setupConfig (Bundle opts setup))
    = Environment (setupConfig setup) /\
  Networks (setupConfig (Bundle opts setup)) = Networks (setupConfig setup) /\
  files (Bundle opts setup) = files setup.
Proof.
  intros H. by rewrite (overlay_options_add _ _ H), add_overlays_bundle.
Qed.

Lemma overlay_options_accumulate_witness :
  Overlays (setupConfig
              (Bundle [WithOverlaySnapshot "/snapshots/geth" "/data";
                       WithRemoteSnapshotAt "mainnet" "geth" "100" "/chain"]
                 {| setupConfig := {| NodeClient := "geth"; Networks := [];
                                      Environment := ∅; Overlays := [] |};
                    files := ∅ |}))
    = [{| SnapshotPath := "/snapshots/geth"; ContainerPath := "/data";
          Network := ""; Client := ""; BlockNumber := ""; URL := "" |};
       {| SnapshotPath := ""; ContainerPath := "/chain"; Network := "mainnet";
          Client := "geth"; BlockNumber := "100"; URL := "" |}].
Proof.
  apply (overlay_options_accumulate
           [WithOverlaySnapshot "/snapshots/geth" "/data";
            WithRemoteSnapshotAt "mainnet" "geth" "100" "/chain"]
           [{| SnapshotPath := "/snapshots/geth"; ContainerPath := "/data";
               Network := ""; Client := ""; BlockNumber := ""; URL := "" |};
            {| SnapshotPath := ""; ContainerPath := "/chain"; Network := "mainnet";
               Client := "geth"; BlockNumber := "100"; URL := "" |}]
           {| setupConfig := {| NodeClient := "geth"; Networks := [];
                                Environment := ∅; Overlays := [] |};
              files := ∅ |}).
  repeat constructor.
Defined.

End StartOptionProperties.
